(** * WordPeek: the lookup pipeline of [wordpeek.py]

    A shallow embedding of the parts of [wordpeek.py] that decide what the
    user sees after a hotkey press:

    - [lookup_word_api]: the HTTP lookup and the report formatter;
    - [_on_hotkey_press_worker]: the clipboard capture;
    - [_handle_lookup_result] and [_remove_window_ref]: the dispatch of a
      lookup result on the UI thread and the list [open_windows].

    Python values are modelled as the interpreter has them: a [str] is a
    sequence of Unicode code points, the value returned by [r.json()] is an
    untyped JSON tree, and every operation that can raise returns a
    [result]. *)

From Stdlib Require Import String Ascii DecimalString DecimalPos SpecFloat.
From Stdlib Require Import List ZArith NArith Bool Lia Arith.
Import ListNotations.

Set Implicit Arguments.
Set Warnings "-register-all".

(* ================================================================== *)
(** ** Python strings *)

(** A Python [str]: its code points, in order.  Python's code points are
    below [0x110000]; lone surrogates ([0xD800]-[0xDFFF]) are legal members
    of a [str]. *)
Definition str := list N.

Fixpoint str_eqb (a b : str) : bool :=
  match a, b with
  | [], [] => true
  | x :: a', y :: b' => (x =? y)%N && str_eqb a' b'
  | _, _ => false
  end.

(** Source literals are written as Rocq strings, which hold the UTF-8 bytes
    of the literal; [u8] decodes them to code points. *)
Fixpoint utf8_decode (bs : list N) : str :=
  match bs with
  | [] => []
  | b :: r =>
      if (b <? 0x80)%N then b :: utf8_decode r
      else if (b <? 0xE0)%N then
        match r with
        | c1 :: r1 =>
            N.lor (N.shiftl (N.land b 0x1F) 6) (N.land c1 0x3F)
              :: utf8_decode r1
        | _ => [b]
        end
      else if (b <? 0xF0)%N then
        match r with
        | c1 :: c2 :: r2 =>
            N.lor (N.shiftl (N.land b 0x0F) 12)
              (N.lor (N.shiftl (N.land c1 0x3F) 6) (N.land c2 0x3F))
              :: utf8_decode r2
        | _ => [b]
        end
      else
        match r with
        | c1 :: c2 :: c3 :: r3 =>
            N.lor (N.shiftl (N.land b 0x07) 18)
              (N.lor (N.shiftl (N.land c1 0x3F) 12)
                 (N.lor (N.shiftl (N.land c2 0x3F) 6) (N.land c3 0x3F)))
              :: utf8_decode r3
        | _ => [b]
        end
  end.

Definition u8 (s : string) : str :=
  utf8_decode (map N_of_ascii (list_ascii_of_string s)).
Arguments u8 s%_string.

(** ["\n"] and the double quote, which the literals of the source escape. *)
Definition nl : str := [10%N].
Definition dq : str := [34%N].

(** [str(i)] for a Python [int]. *)
Definition dec (z : Z) : str :=
  map N_of_ascii (list_ascii_of_string (NilZero.string_of_int (Z.to_int z))).

(** [s.startswith(p)]. *)
Fixpoint startswith (p s : str) : bool :=
  match p, s with
  | [], _ => true
  | a :: p', b :: s' => (a =? b)%N && startswith p' s'
  | _ :: _, [] => false
  end.

(** [p in s] for two strings: [p] occurs in [s]. *)
Fixpoint str_contains (p s : str) : bool :=
  startswith p s ||
  match s with
  | [] => false
  | _ :: s' => str_contains p s'
  end.

(** [sep.join(items)] for a list of strings. *)
Fixpoint join (sep : str) (items : list str) : str :=
  match items with
  | [] => []
  | [x] => x
  | x :: rest => x ++ sep ++ join sep rest
  end.

(** [s.split(sep)] for a one-character separator. *)
Fixpoint split (sep : N) (s : str) : list str :=
  match s with
  | [] => [[]]
  | c :: s' =>
      if (c =? sep)%N then [] :: split sep s'
      else match split sep s' with
           | [] => [[c]]
           | seg :: segs => (c :: seg) :: segs
           end
  end.

(** The lines of a text: [text.split("\n")]. *)
Definition lines (text : str) : list str := split 10%N text.

(** [s.split(sep, 1)] for a one-character separator. *)
Fixpoint split1 (sep : N) (s : str) : list str :=
  match s with
  | [] => [[]]
  | c :: s' =>
      if (c =? sep)%N then [[]; s']
      else match split1 sep s' with
           | [] => [[c]]
           | seg :: segs => (c :: seg) :: segs
           end
  end.

(** [c.isspace()]: the code points [str.strip()] removes. *)
Definition isspace (c : N) : bool :=
  ((0x09 <=? c) && (c <=? 0x0D))%N
  || ((0x1C <=? c) && (c <=? 0x20))%N
  || (c =? 0x85)%N || (c =? 0xA0)%N || (c =? 0x1680)%N
  || ((0x2000 <=? c) && (c <=? 0x200A))%N
  || (c =? 0x2028)%N || (c =? 0x2029)%N || (c =? 0x202F)%N
  || (c =? 0x205F)%N || (c =? 0x3000)%N.

Fixpoint lstrip (s : str) : str :=
  match s with
  | [] => []
  | c :: s' => if isspace c then lstrip s' else s
  end.

Definition rstrip (s : str) : str := rev (lstrip (rev s)).

(** [s.strip()]. *)
Definition strip (s : str) : str := rstrip (lstrip s).

(* ================================================================== *)
(** ** JSON values, exceptions and the result of a call *)

(** What [r.json()] returns.  A [dict] is the list of its items in insertion
    order; a lookup takes the first item with the key. *)
Inductive json : Type :=
| JNull
| JBool (b : bool)
| JInt (z : Z)
| JFloat (f : spec_float)
| JStr (s : str)
| JList (l : list json)
| JDict (d : list (str * json)).

(** The exceptions of the modelled code.  [LibraryError] stands for whatever
    [requests.get], [r.json()] or the clipboard library raise (connection
    errors, timeouts, decode errors): [tag] tells them apart. *)
Inductive exn : Type :=
| TypeError (v : json)
| AttributeError (v : json)
| KeyError (k : str)
| IndexError
| ValueError
| UnicodeEncodeError (c : N)
| LibraryError (tag : N).

Inductive result (A : Type) : Type :=
| Ok (a : A)
| Raise (e : exn).
Arguments Ok {A} a.
Arguments Raise {A} e.

Definition bind {A B} (c : result A) (k : A -> result B) : result B :=
  match c with
  | Ok a => k a
  | Raise e => Raise e
  end.

Notation "x <- c ;; k" := (bind c (fun x => k))
  (at level 61, c at next level, right associativity).

(** [try: c  except Exception as e: h e]. *)
Definition try_except {A} (c : result A) (h : exn -> result A) : result A :=
  match c with
  | Ok a => Ok a
  | Raise e => h e
  end.

(** A [for] loop that threads the state [s] through its body. *)
Fixpoint for_each {A S} (xs : list A) (body : A -> S -> result S) (s : S)
  : result S :=
  match xs with
  | [] => Ok s
  | x :: xs' => s' <- body x s ;; for_each xs' body s'
  end.

(** [enumerate(xs, start)]. *)
Fixpoint enumerate {A} (start : nat) (xs : list A) : list (nat * A) :=
  match xs with
  | [] => []
  | x :: xs' => (start, x) :: enumerate (S start) xs'
  end.

(** The text of the interpreter that the code prints but does not decide:
    [str()] of a float, list or dict, and [str(e)] of an exception. *)
Record runtime : Type := {
  repr_value : json -> str;
  str_of_exn : exn -> str
}.

(* ------------------------------------------------------------------ *)
(** *** Operations on dynamically typed values *)

Fixpoint dict_lookup (k : str) (d : list (str * json)) : option json :=
  match d with
  | [] => None
  | (k', v) :: d' => if str_eqb k k' then Some v else dict_lookup k d'
  end.

Definition is_str (k : str) (v : json) : bool :=
  match v with
  | JStr s => str_eqb s k
  | _ => false
  end.

(** [k in v] for a string [k]. *)
Definition py_in (k : str) (v : json) : result bool :=
  match v with
  | JDict d => Ok (existsb (fun kv => str_eqb k (fst kv)) d)
  | JList l => Ok (existsb (is_str k) l)
  | JStr s => Ok (str_contains k s)
  | _ => Raise (TypeError v)
  end.

(** [v.get(k, default)]: only a [dict] has [get]. *)
Definition py_get (v : json) (k : str) (default : json) : result json :=
  match v with
  | JDict d =>
      Ok (match dict_lookup k d with Some x => x | None => default end)
  | _ => Raise (AttributeError v)
  end.

(** [v[k]] for a string [k]. *)
Definition py_getitem (v : json) (k : str) : result json :=
  match v with
  | JDict d =>
      match dict_lookup k d with
      | Some x => Ok x
      | None => Raise (KeyError k)
      end
  | _ => Raise (TypeError v)
  end.

(** [iter(v)]: the items a [for] loop over [v] visits. *)
Definition py_iter (v : json) : result (list json) :=
  match v with
  | JList l => Ok l
  | JDict d => Ok (map (fun kv => JStr (fst kv)) d)
  | JStr s => Ok (map (fun c => JStr [c]) s)
  | _ => Raise (TypeError v)
  end.

(** [bool(v)]. *)
Definition truthy (v : json) : bool :=
  match v with
  | JNull => false
  | JBool b => b
  | JInt z => negb (z =? 0)%Z
  | JFloat (S754_zero _) => false
  | JFloat _ => true
  | JStr [] => false
  | JStr _ => true
  | JList [] => false
  | JList _ => true
  | JDict [] => false
  | JDict _ => true
  end.

(** [sep.join(items)] for a list of values: every item must be a [str]. *)
Fixpoint py_join (sep : str) (items : list json) : result str :=
  match items with
  | [] => Ok []
  | JStr x :: rest =>
      match rest with
      | [] => Ok x
      | _ => r <- py_join sep rest ;; Ok (x ++ sep ++ r)
      end
  | v :: _ => Raise (TypeError v)
  end.

(** [f"{v}"]. *)
Definition fmt (rt : runtime) (v : json) : str :=
  match v with
  | JStr s => s
  | JNull => u8 "None"
  | JBool true => u8 "True"
  | JBool false => u8 "False"
  | JInt z => dec z
  | _ => repr_value rt v
  end.

(* ================================================================== *)
(** ** [requests.utils.quote] *)

(** [s.encode("utf-8")] of one code point; surrogates and numbers that are
    no code points have no encoding. *)
Definition utf8_encode_cp (c : N) : result (list N) :=
  if (c <? 0x80)%N then Ok [c]
  else if (c <? 0x800)%N then
    Ok [N.lor 0xC0 (N.shiftr c 6); N.lor 0x80 (N.land c 0x3F)]
  else if ((0xD800 <=? c) && (c <=? 0xDFFF))%N then
    Raise (UnicodeEncodeError c)
  else if (c <? 0x10000)%N then
    Ok [N.lor 0xE0 (N.shiftr c 12);
        N.lor 0x80 (N.land (N.shiftr c 6) 0x3F);
        N.lor 0x80 (N.land c 0x3F)]
  else if (c <? 0x110000)%N then
    Ok [N.lor 0xF0 (N.shiftr c 18);
        N.lor 0x80 (N.land (N.shiftr c 12) 0x3F);
        N.lor 0x80 (N.land (N.shiftr c 6) 0x3F);
        N.lor 0x80 (N.land c 0x3F)]
  else Raise (UnicodeEncodeError c).

Fixpoint utf8_encode (s : str) : result (list N) :=
  match s with
  | [] => Ok []
  | c :: s' =>
      b <- utf8_encode_cp c ;;
      bs <- utf8_encode s' ;;
      Ok (b ++ bs)
  end.

(** Letters, digits and [_.-~] are never quoted; [/] is the default [safe]. *)
Definition quote_safe (b : N) : bool :=
  ((0x41 <=? b) && (b <=? 0x5A))%N
  || ((0x61 <=? b) && (b <=? 0x7A))%N
  || ((0x30 <=? b) && (b <=? 0x39))%N
  || (b =? 0x5F)%N || (b =? 0x2E)%N || (b =? 0x2D)%N || (b =? 0x7E)%N
  || (b =? 0x2F)%N.

Definition hex_digit (n : N) : N :=
  if (n <? 10)%N then (0x30 + n)%N else (0x41 + (n - 10))%N.

Definition quote_byte (b : N) : str :=
  if quote_safe b then [b]
  else [0x25%N; hex_digit (b / 16); hex_digit (b mod 16)].

(** [requests.utils.quote(word)]: [urllib.parse.quote] with its default
    arguments, which encodes [word] as UTF-8 with [errors="strict"]. *)
Definition quote (word : str) : result str :=
  bs <- utf8_encode word ;;
  Ok (flat_map quote_byte bs).

(* ================================================================== *)
(** ** The lookup service: [lookup_word_api] *)

Definition DICTIONARY_API : str :=
  u8 "https://api.dictionaryapi.dev/api/v2/entries/en/".

(** The response object [r] of [requests.get]: [r.status_code] and the
    outcome of calling [r.json()]. *)
Record response : Type := {
  status_code : Z;
  json_body : result json
}.

(** [requests.get(url, timeout=6)]: the response, or the exception raised. *)
Definition network := str -> result response.

Section Lookup.

Variable rt : runtime.

(** The body of [for i, defn in enumerate(..., start=1)]. *)
Definition definition_lines (idef : nat * json) (out_lines : list str)
  : result (list str) :=
  let (i, defn) := idef in
  d <- py_get defn (u8 "definition") (JStr []) ;;
  ex <- py_get defn (u8 "example") (JStr []) ;;
  let out_lines :=
    out_lines ++ [u8 "  " ++ dec (Z.of_nat i) ++ u8 ". " ++ fmt rt d] in
  if truthy ex
  then Ok (out_lines ++ [u8 "     e.g., " ++ fmt rt ex])
  else Ok out_lines.

(** The body of [for meaning in entry["meanings"]]. *)
Definition meaning_lines (meaning : json) (out_lines : list str)
  : result (list str) :=
  part <- py_get meaning (u8 "partOfSpeech") (JStr []) ;;
  let out_lines :=
    out_lines ++ [nl ++ u8 "Part of speech: " ++ fmt rt part] in
  defs <- py_get meaning (u8 "definitions") (JList []) ;;
  items <- py_iter defs ;;
  for_each (enumerate 1 items) definition_lines out_lines.

(** [[p.get("text","") for p in ps if p.get("text")]]. *)
Fixpoint phonetic_texts (ps : list json) : result (list json) :=
  match ps with
  | [] => Ok []
  | p :: ps' =>
      t <- py_get p (u8 "text") JNull ;;
      if truthy t then
        v <- py_get p (u8 "text") (JStr []) ;;
        rest <- phonetic_texts ps' ;;
        Ok (v :: rest)
      else phonetic_texts ps'
  end.

(** The body of [for entry in data]. *)
Definition entry_lines (entry : json) (out_lines : list str)
  : result (list str) :=
  has_word <- py_in (u8 "word") entry ;;
  out_lines <-
    (if has_word then
       w <- py_get entry (u8 "word") JNull ;;
       Ok (out_lines ++ [u8 "Word: " ++ fmt rt w])
     else Ok out_lines) ;;
  has_phonetics <- py_in (u8 "phonetics") entry ;;
  cond <-
    (if has_phonetics then
       v <- py_getitem entry (u8 "phonetics") ;; Ok (truthy v)
     else Ok false) ;;
  out_lines <-
    (if cond then
       v <- py_getitem entry (u8 "phonetics") ;;
       ps <- py_iter v ;;
       ph <- phonetic_texts ps ;;
       match ph with
       | [] => Ok out_lines
       | _ =>
           joined <- py_join (u8 ", ") ph ;;
           Ok (out_lines ++ [u8 "Pronunciation: " ++ joined])
       end
     else Ok out_lines) ;;
  has_meanings <- py_in (u8 "meanings") entry ;;
  if has_meanings then
    v <- py_getitem entry (u8 "meanings") ;;
    ms <- py_iter v ;;
    for_each ms meaning_lines out_lines
  else Ok out_lines.

(** The loop over [data] that fills [out_lines]. *)
Definition collect_lines (data : json) : result (list str) :=
  entries <- py_iter data ;;
  for_each entries entry_lines [].

(** The [try] block of the [status_code == 200] branch, before its
    [except]: [r.json()], the loop and the final [return]. *)
Definition format_response (r : response) : result (option str) :=
  data <- json_body r ;;
  out_lines <- collect_lines data ;;
  match out_lines with
  | [] => Ok None
  | _ => Ok (Some (join nl out_lines))
  end.

(** [lookup_word_api(word)]: [Ok None] is the Python [None], [Ok (Some s)]
    the returned string, [Raise e] an exception that leaves the function. *)
Definition lookup_word_api (net : network) (word : str)
  : result (option str) :=
  q <- quote word ;;
  let url := DICTIONARY_API ++ q in
  match net url with
  | Raise e =>
      Ok (Some (u8 "Error contacting dictionary API: " ++ str_of_exn rt e))
  | Ok r =>
      if (status_code r =? 200)%Z then
        try_except (format_response r)
          (fun e =>
             Ok (Some (u8 "Error parsing API response: " ++ str_of_exn rt e)))
      else if (status_code r =? 404)%Z then Ok None
      else
        Ok (Some (u8 "Unexpected API response: " ++ dec (status_code r)))
  end.

End Lookup.

(* ================================================================== *)
(** ** Selection capture: [_on_hotkey_press_worker] *)

(** What the operating system answers to one run of the worker. *)
Record capture_env : Type := {
  copy_hotkey : result unit;   (* pyautogui.hotkey(COPY_MODIFIER, "c") *)
  copy_keys : result unit;     (* keyDown, press("c"), keyUp *)
  paste : result str           (* pyperclip.paste() *)
}.

(** What the worker hands to the UI thread. *)
Inductive handoff : Type :=
| NoSelection (title text : str)     (* QMessageBox.information, queued *)
| RequestLookup (selection : str).   (* self.request_lookup.emit *)

Definition no_selection_title : str := u8 "No selection".
Definition no_selection_text : str :=
  u8 "No text was selected (or nothing copied). Select text and press the hotkey again.".

Definition _on_hotkey_press_worker (env : capture_env) : result handoff :=
  _ <- try_except
         (try_except (copy_hotkey env) (fun _ => copy_keys env))
         (fun _ => Ok tt) ;;
  selection <- try_except (paste env) (fun _ => Ok []) ;;
  match selection with
  | [] => Ok (NoSelection no_selection_title no_selection_text)
  | _ =>
      match strip selection with
      | [] => Ok (NoSelection no_selection_title no_selection_text)
      | _ => Ok (RequestLookup (strip selection))
      end
  end.

(* ================================================================== *)
(** ** The UI thread: [DictHelperApp] *)

(** A [ResultWindow] object.  Python compares widgets by identity: [wid]
    is the identity of the object. *)
Record ResultWindow : Type := {
  wid : nat;
  win_title : str;
  win_text : str
}.

Definition same_object (a b : ResultWindow) : bool := wid a =? wid b.

(** A modal message box. *)
Inductive notice : Type :=
| critical (title text : str)
| information (title text : str).

(** The application object and the widgets around it: [open_windows] is the
    attribute of the source; [live] holds the [ResultWindow] objects that
    exist, [visible] those on screen, [notices] the message boxes shown so
    far and [next_wid] the identity of the next object. *)
Record app_state : Type := {
  open_windows : list ResultWindow;
  live : list ResultWindow;
  visible : list ResultWindow;
  notices : list notice;
  next_wid : nat
}.

(** The state after [DictHelperApp.__init__]. *)
Definition init_state : app_state :=
  {| open_windows := []; live := []; visible := []; notices := [];
     next_wid := 0 |}.

(** [w in l]. *)
Definition list_in (w : ResultWindow) (l : list ResultWindow) : bool :=
  existsb (fun x => same_object x w) l.

(** [l.remove(w)]: drops the first item equal to [w], [ValueError] if there
    is none. *)
Fixpoint list_remove (w : ResultWindow) (l : list ResultWindow)
  : result (list ResultWindow) :=
  match l with
  | [] => Raise ValueError
  | x :: l' =>
      if same_object x w then Ok l'
      else l'' <- list_remove w l' ;; Ok (x :: l'')
  end.

Definition set_open_windows (st : app_state) (l : list ResultWindow)
  : app_state :=
  {| open_windows := l; live := live st; visible := visible st;
     notices := notices st; next_wid := next_wid st |}.

Definition _remove_window_ref (st : app_state) (w : ResultWindow)
  : result app_state :=
  try_except
    (if list_in w (open_windows st) then
       l <- list_remove w (open_windows st) ;;
       Ok (set_open_windows st l)
     else Ok st)
    (fun _ => Ok st).

Definition add_notice (st : app_state) (n : notice) : app_state :=
  {| open_windows := open_windows st; live := live st;
     visible := visible st; notices := notices st ++ [n];
     next_wid := next_wid st |}.

(** [l[i]]. *)
Definition py_index {A} (l : list A) (i : nat) : result A :=
  match nth_error l i with
  | Some x => Ok x
  | None => Raise IndexError
  end.

Definition ERROR_MARK : str := u8 "__ERROR__:".

(** [_handle_lookup_result(selection, result)]; the argument [result] of
    the source, here [res], is [None] or a string. *)
Definition _handle_lookup_result (st : app_state) (selection : str)
    (res : option str) : result app_state :=
  if match res with
     | Some s => startswith ERROR_MARK s
     | None => false
     end
  then
    match res with
    | Some s =>
        err <- py_index (split1 58%N s) 1 ;;
        Ok (add_notice st
              (critical (u8 "Lookup Error")
                 (u8 "Error while looking up " ++ dq ++ selection ++ dq
                    ++ u8 ":" ++ nl ++ err)))
    | None => Ok st
    end
  else
    match res with
    | None =>
        Ok (add_notice st
              (information (u8 "Not found")
                 (u8 "No such word exists: " ++ dq ++ selection ++ dq)))
    | Some text =>
        let resw :=
          {| wid := next_wid st;
             win_title := u8 "Meaning: " ++ selection;
             win_text := text |} in
        Ok {| open_windows := open_windows st ++ [resw];
              live := live st ++ [resw];
              visible := visible st ++ [resw];
              notices := notices st;
              next_wid := S (next_wid st) |}
    end.

(** The worker [bg_lookup] of [_handle_lookup_request]: the arguments it
    passes to [self.lookup_result.emit]. *)
Definition bg_lookup (rt : runtime) (net : network) (selection : str)
  : str * option str :=
  match lookup_word_api rt net selection with
  | Ok res => (selection, res)
  | Raise e => (selection, Some (ERROR_MARK ++ str_of_exn rt e))
  end.

(** [list] without the object [w]. *)
Definition without (w : ResultWindow) (l : list ResultWindow)
  : list ResultWindow :=
  filter (fun x => negb (same_object x w)) l.

(** What reaches the UI thread. *)
Inductive event : Type :=
| LookupResult (selection : str) (res : option str)
| ContinueReading (w : ResultWindow)     (* [_on_continue]: [w.close()] *)
| Destroyed (w : ResultWindow).          (* the signal [w.destroyed] *)

(** One event handled on the UI thread.  [w.close()] hides the window; the
    slot connected to [destroyed] runs just before the object [w] goes
    away. *)
Inductive step : app_state -> event -> app_state -> Prop :=
| step_lookup_result st selection res st' :
    _handle_lookup_result st selection res = Ok st' ->
    step st (LookupResult selection res) st'
| step_continue st w :
    In w (visible st) ->
    step st (ContinueReading w)
      {| open_windows := open_windows st; live := live st;
         visible := without w (visible st); notices := notices st;
         next_wid := next_wid st |}
| step_destroyed st w st1 :
    In w (live st) ->
    _remove_window_ref st w = Ok st1 ->
    step st (Destroyed w)
      {| open_windows := open_windows st1; live := without w (live st1);
         visible := without w (visible st1); notices := notices st1;
         next_wid := next_wid st1 |}.

(** The states the application can be in. *)
Inductive reachable : app_state -> Prop :=
| reachable_init : reachable init_state
| reachable_step st ev st' :
    reachable st -> step st ev st' -> reachable st'.

(* ================================================================== *)
(** ** A provider response of the documented shape *)

(** The objects of a response as the provider documents them; a field that
    is [None] is absent from the object. *)
Record Definition_ : Type := {
  definition : option str;
  example : option str
}.

Record Meaning : Type := {
  partOfSpeech : option str;
  definitions : option (list Definition_)
}.

Record Phonetic : Type := {
  text : option str
}.

Record Entry : Type := {
  word : option str;
  phonetics : option (list Phonetic);
  meanings : option (list Meaning)
}.

(** The JSON object of a record: one item per field that is present. *)
Definition field {A} (k : string) (to_json : A -> json) (o : option A)
  : list (str * json) :=
  match o with
  | Some a => [(u8 k, to_json a)]
  | None => []
  end.
Arguments field {A} k%_string to_json o.

Definition definition_json (d : Definition_) : json :=
  JDict (field "definition" JStr (definition d)
           ++ field "example" JStr (example d)).

Definition meaning_json (m : Meaning) : json :=
  JDict (field "partOfSpeech" JStr (partOfSpeech m)
           ++ field "definitions"
                (fun ds => JList (map definition_json ds)) (definitions m)).

Definition phonetic_json (p : Phonetic) : json :=
  JDict (field "text" JStr (text p)).

Definition entry_json (e : Entry) : json :=
  JDict (field "word" JStr (word e)
           ++ field "phonetics"
                (fun ps => JList (map phonetic_json ps)) (phonetics e)
           ++ field "meanings"
                (fun ms => JList (map meaning_json ms)) (meanings e)).

Definition response_json (es : list Entry) : json :=
  JList (map entry_json es).

(** The report as the specification words it, item by item: the word item,
    the pronunciation item when a phonetic text exists, and per meaning the
    part-of-speech item followed by the numbered definitions, each with its
    example item when it has an example. *)
Definition or_empty (o : option str) : str :=
  match o with
  | Some s => s
  | None => []
  end.

Definition nonempty (s : str) : bool :=
  match s with
  | [] => false
  | _ => true
  end.

Definition definition_item (i : nat) (d : Definition_) : str :=
  u8 "  " ++ dec (Z.of_nat i) ++ u8 ". " ++ or_empty (definition d).

Definition example_item (ex : str) : str := u8 "     e.g., " ++ ex.

Definition definition_items (id : nat * Definition_) : list str :=
  definition_item (fst id) (snd id)
    :: (if nonempty (or_empty (example (snd id)))
        then [example_item (or_empty (example (snd id)))]
        else []).

Definition all_definitions (m : Meaning) : list Definition_ :=
  match definitions m with
  | Some ds => ds
  | None => []
  end.

Definition meaning_items (m : Meaning) : list str :=
  (nl ++ u8 "Part of speech: " ++ or_empty (partOfSpeech m))
    :: flat_map definition_items (enumerate 1 (all_definitions m)).

Definition phonetic_strings (e : Entry) : list str :=
  match phonetics e with
  | Some ps => filter nonempty (map (fun p => or_empty (text p)) ps)
  | None => []
  end.

Definition all_meanings (e : Entry) : list Meaning :=
  match meanings e with
  | Some ms => ms
  | None => []
  end.

Definition entry_items (e : Entry) : list str :=
  match word e with
  | Some w => [u8 "Word: " ++ w]
  | None => []
  end
  ++ match phonetic_strings e with
     | [] => []
     | ph => [u8 "Pronunciation: " ++ join (u8 ", ") ph]
     end
  ++ flat_map meaning_items (all_meanings e).

Definition report_items (es : list Entry) : list str :=
  flat_map entry_items es.

(* ------------------------------------------------------------------ *)
(** *** Reading a report by its lines *)

Definition is_digit (c : N) : bool := ((0x30 <=? c) && (c <=? 0x39))%N.

Fixpoint skip_digits (s : str) : str :=
  match s with
  | [] => []
  | c :: s' => if is_digit c then skip_digits s' else s
  end.

(** A line that begins ["Word: "]. *)
Definition word_line (l : str) : bool := startswith (u8 "Word: ") l.

(** A line of the form ["  i. <definition>"]: two spaces, a decimal number,
    a full stop and a space. *)
Definition numbered_line (l : str) : bool :=
  match l with
  | 32%N :: 32%N :: c :: r =>
      is_digit c && startswith (u8 ". ") (skip_digits r)
  | _ => false
  end.

Definition count (p : str -> bool) (ls : list str) : nat :=
  length (filter p ls).

(** A string without ["\n"]. *)
Definition one_line (s : str) : bool :=
  forallb (fun c => negb (c =? 10)%N) s.

Definition definition_one_line (d : Definition_) : bool :=
  one_line (or_empty (definition d)) && one_line (or_empty (example d)).

Definition meaning_one_line (m : Meaning) : bool :=
  one_line (or_empty (partOfSpeech m))
  && forallb definition_one_line (all_definitions m).

Definition all_phonetics (e : Entry) : list Phonetic :=
  match phonetics e with
  | Some ps => ps
  | None => []
  end.

Definition entry_one_line (e : Entry) : bool :=
  one_line (or_empty (word e))
  && forallb (fun p => one_line (or_empty (text p))) (all_phonetics e)
  && forallb meaning_one_line (all_meanings e).

(** An entry with a [word] field, [M] meanings and [K] definitions in each
    meaning. *)
Definition has_shape (M K : nat) (e : Entry) : bool :=
  match word e with
  | Some _ => true
  | None => false
  end
  && (length (all_meanings e) =? M)
  && forallb (fun m => length (all_definitions m) =? K) (all_meanings e).

(* ================================================================== *)
(** ** The outcomes of the specification *)

(** The [LookupOutcome] of the specification.  [lookup_word_api] has no
    such type: it returns [None] or a string, and an error is a string
    that begins with one of three fixed texts. *)
Inductive LookupOutcome : Type :=
| Success (report : str)
| NotFound
| Error (message : str).

Definition contact_error : str := u8 "Error contacting dictionary API: ".
Definition parse_error : str := u8 "Error parsing API response: ".
Definition status_error : str := u8 "Unexpected API response: ".

Definition is_error_message (s : str) : bool :=
  startswith contact_error s || startswith parse_error s
  || startswith status_error s.

Definition outcome_of (v : option str) : LookupOutcome :=
  match v with
  | None => NotFound
  | Some s => if is_error_message s then Error s else Success s
  end.

(** A text every code point of which [quote] can encode. *)
Definition encodable (s : str) : bool :=
  forallb (fun c => (c <? 0x110000)%N
                    && negb ((0xD800 <=? c) && (c <=? 0xDFFF))%N) s.

(** A runtime to run the examples with: it names the class of an
    exception and prints a placeholder for a container or a float. *)
Definition example_runtime : runtime :=
  {| repr_value := fun _ => u8 "<value>";
     str_of_exn := fun e =>
       match e with
       | TypeError _ => u8 "TypeError"
       | AttributeError _ => u8 "AttributeError"
       | KeyError _ => u8 "KeyError"
       | IndexError => u8 "IndexError"
       | ValueError => u8 "ValueError"
       | UnicodeEncodeError _ => u8 "UnicodeEncodeError"
       | LibraryError _ => u8 "RequestException"
       end |}.

(** A network that answers every request with the response [r]. *)
Definition always (r : response) : network := fun _ => Ok r.

(** A network on which every request fails with a timeout. *)
Definition timing_out : network := fun _ => Raise (LibraryError 1).

(** The lines of the text of a list of items. *)
Definition text_lines (items : list str) : list str := flat_map lines items.

(** The response of the scenario: one entry for [run]. *)
Definition run_entry : json :=
  JDict
    [(u8 "word", JStr (u8 "run"));
     (u8 "phonetics", JList [JDict [(u8 "text", JStr (u8 "/rʌn/"))]]);
     (u8 "meanings",
      JList
        [JDict
           [(u8 "partOfSpeech", JStr (u8 "verb"));
            (u8 "definitions",
             JList
               [JDict [(u8 "definition", JStr (u8 "move fast"));
                       (u8 "example", JStr (u8 "She ran."))]])]])].

Definition run_response : response :=
  {| status_code := 200; json_body := Ok (JList [run_entry]) |}.

(** A response with status 500, and one with status 404. *)
Definition server_error : response :=
  {| status_code := 500; json_body := Raise (LibraryError 2) |}.

Definition not_found : response :=
  {| status_code := 404; json_body := Raise (LibraryError 2) |}.

(** A response with status 200 whose body [r.json()] cannot parse. *)
Definition unparsable : response :=
  {| status_code := 200; json_body := Raise (LibraryError 3) |}.

(** On the network [net], the lookup of [run] ends in an error text that
    the handler shows in a result window, without any notice. *)
Definition shown_as_report (net : network) : Prop :=
  exists message st',
    bg_lookup example_runtime net (u8 "run") = (u8 "run", Some message)
    /\ is_error_message message = true
    /\ _handle_lookup_result init_state (u8 "run") (Some message) = Ok st'
    /\ notices st' = []
    /\ open_windows st'
       = [{| wid := 0; win_title := u8 "Meaning: run";
             win_text := message |}]
    /\ visible st' = open_windows st'.

(** The objects of a list are pairwise distinct. *)
Definition distinct (l : list ResultWindow) : Prop := NoDup (map wid l).

(** What holds of every state of the application: the registry lists no
    object twice, every identity in it has been handed out, it lists every
    live window, and a window on screen is live. *)
Definition registry_ok (st : app_state) : Prop :=
  distinct (open_windows st)
  /\ (forall x, In x (open_windows st) -> wid x < next_wid st)
  /\ incl (live st) (open_windows st)
  /\ incl (visible st) (live st).

(** The state after one report for [run] has been shown. *)
Definition one_window : app_state :=
  {| open_windows :=
       [{| wid := 0; win_title := u8 "Meaning: run";
           win_text := u8 "Word: run" |}];
     live :=
       [{| wid := 0; win_title := u8 "Meaning: run";
           win_text := u8 "Word: run" |}];
     visible :=
       [{| wid := 0; win_title := u8 "Meaning: run";
           win_text := u8 "Word: run" |}];
     notices := [];
     next_wid := 1 |}.

(** How a report begins: with the first item the loop can append to an
    empty [out_lines]. *)
Definition report_head (s : str) : bool :=
  startswith (u8 "Word: ") s
  || startswith (u8 "Pronunciation: ") s
  || startswith (nl ++ u8 "Part of speech: ") s.

(** [out'] is [out] with items appended. *)
Definition extends (out out' : list str) : Prop :=
  exists suffix, out' = out ++ suffix.

(** [out'] is [out], or [out] with items appended the first of which
    begins like a report. *)
Definition grows (out out' : list str) : Prop :=
  out' = out
  \/ exists h suffix, out' = out ++ h :: suffix /\ report_head h = true.

(** The outcome the specification gives to a lookup, read off the answer
    of the network. *)
Definition expected_outcome (rt : runtime) (answer : result response)
  : LookupOutcome :=
  match answer with
  | Raise e => Error (contact_error ++ str_of_exn rt e)
  | Ok r =>
      if (status_code r =? 200)%Z then
        match format_response rt r with
        | Ok (Some report) => Success report
        | Ok None => NotFound
        | Raise e => Error (parse_error ++ str_of_exn rt e)
        end
      else if (status_code r =? 404)%Z then NotFound
      else Error (status_error ++ dec (status_code r))
  end.

(** A response with one entry, one meaning and one definition whose text
    holds a line break. *)
Definition two_line_definition : list Entry :=
  [{| word := Some (u8 "a");
      phonetics := None;
      meanings :=
        Some [{| partOfSpeech := Some (u8 "noun");
                 definitions :=
                   Some [{| definition :=
                              Some (u8 "x" ++ nl ++ u8 "Word: b" ++ nl
                                      ++ u8 "  2. y");
                            example := None |}] |}] |}].

(** The entry for [run] as a record of the documented shape. *)
Definition run_entries : list Entry :=
  [{| word := Some (u8 "run");
      phonetics := Some [{| text := Some (u8 "/rʌn/") |}];
      meanings :=
        Some [{| partOfSpeech := Some (u8 "verb");
                 definitions :=
                   Some [{| definition := Some (u8 "move fast");
                            example := Some (u8 "She ran.") |}] |}] |}].

(** [None], a number or a boolean: a value that is no container. *)
Definition is_scalar (v : json) : bool :=
  match v with
  | JNull | JBool _ | JInt _ | JFloat _ => true
  | _ => false
  end.

(** A key in which one of the three field names of an entry occurs. *)
Definition names_field (k : str) : bool :=
  str_contains (u8 "word") k
  || str_contains (u8 "phonetics") k
  || str_contains (u8 "meanings") k.

(** The exception the loop over the keys of an object stops with at the
    key [k]. *)
Definition key_error (k : str) : exn :=
  if str_contains (u8 "word") k then AttributeError (JStr k)
  else TypeError (JStr k).

(** A response with status 200 and the parsed body [body]. *)
Definition ok_body (body : json) : response :=
  {| status_code := 200; json_body := Ok body |}.

(** An entry of the documented shape that renders no item: no [word], no
    phonetic text that is not empty, no meaning. *)
Definition renders_nothing (e : Entry) : bool :=
  match word e, phonetic_strings e, all_meanings e with
  | None, [], [] => true
  | _, _, _ => false
  end.

(** The lookup on a network that answers 200 with the entries [es]. *)
Definition lookup_entries (rt : runtime) (selection : str)
    (es : list Entry) : result (option str) :=
  lookup_word_api rt (always (ok_body (response_json es))) selection.




(* ================================================================== *)
(** * Properties *)

(** ** Strings and lists *)

Lemma str_eqb_refl (a : str) : str_eqb a a = true.
Proof.
  induction a as [|x a IH]; simpl; [reflexivity|].
  now rewrite N.eqb_refl, IH.
Qed.

Lemma str_eqb_eq (a b : str) : str_eqb a b = true <-> a = b.
Proof.
  revert b; induction a as [|x a IH]; intros [|y b]; simpl;
    try (split; congruence).
  rewrite andb_true_iff, N.eqb_eq, IH. split.
  - intros [-> ->]; reflexivity.
  - intros H; inversion H; auto.
Qed.

Lemma startswith_app (p s : str) : startswith p (p ++ s) = true.
Proof.
  induction p as [|a p IH]; simpl; [reflexivity|].
  now rewrite N.eqb_refl, IH.
Qed.

Lemma startswith_spec (p s : str) :
  startswith p s = true <-> exists r, s = p ++ r.
Proof.
  revert s; induction p as [|a p IH]; intros s; simpl.
  - split; eauto.
  - destruct s as [|b s].
    + split; [discriminate | intros [r H]; discriminate].
    + rewrite andb_true_iff, N.eqb_eq, IH. split.
      * intros [-> [r ->]]. now exists r.
      * intros [r H]. inversion H; subst. eauto.
Qed.

Lemma split_nonempty (sep : N) (s : str) : split sep s <> [].
Proof.
  induction s as [|c s IH]; simpl; [discriminate|].
  destruct (c =? sep)%N; [discriminate|].
  destruct (split sep s); [contradiction | discriminate].
Qed.

Lemma split_app (sep : N) (a b : str) :
  split sep (a ++ sep :: b) = split sep a ++ split sep b.
Proof.
  induction a as [|c a IH]; simpl.
  - now rewrite N.eqb_refl.
  - destruct (c =? sep)%N.
    + now rewrite IH.
    + rewrite IH. pose proof (split_nonempty sep a) as Hne.
      destruct (split sep a); [contradiction | reflexivity].
Qed.

Lemma split_one_line (s : str) : one_line s = true -> lines s = [s].
Proof.
  unfold lines. induction s as [|c s IH]; simpl; [reflexivity|].
  rewrite andb_true_iff, negb_true_iff. intros [Hc Hs].
  now rewrite Hc, (IH Hs).
Qed.

Lemma lines_join (items : list str) :
  items <> [] -> lines (join nl items) = flat_map lines items.
Proof.
  induction items as [|x rest IH]; [congruence|]. intros _.
  destruct rest as [|y rest].
  - simpl. now rewrite app_nil_r.
  - change (join nl (x :: y :: rest)) with (x ++ 10%N :: join nl (y :: rest)).
    unfold lines at 1. rewrite split_app. fold (lines x).
    fold (lines (join nl (y :: rest))). rewrite IH by discriminate.
    reflexivity.
Qed.

Lemma one_line_app (a b : str) :
  one_line (a ++ b) = one_line a && one_line b.
Proof. apply forallb_app. Qed.

Lemma count_app (p : str -> bool) (a b : list str) :
  count p (a ++ b) = count p a + count p b.
Proof. unfold count. now rewrite filter_app, length_app. Qed.



Lemma lstrip_spaces (s : str) : forallb isspace s = true -> lstrip s = [].
Proof.
  induction s as [|c s IH]; simpl; [reflexivity|].
  rewrite andb_true_iff. intros [Hc Hs]. now rewrite Hc, IH.
Qed.

Lemma strip_spaces (s : str) : forallb isspace s = true -> strip s = [].
Proof. intros H. unfold strip. now rewrite lstrip_spaces. Qed.

(** ** Decimal numbers *)

Lemma uint_digits (u : Decimal.uint) :
  forallb is_digit
    (map N_of_ascii (list_ascii_of_string (NilEmpty.string_of_uint u))) = true.
Proof. induction u; simpl; auto. Qed.

Lemma dec_of_nat (i : nat) :
  exists c r,
    dec (Z.of_nat i) = c :: r /\ is_digit c = true /\
    forallb is_digit r = true.
Proof.
  unfold dec. destruct (Z.of_nat i) as [|p|p] eqn:E.
  - exists 48%N, []. repeat split.
  - simpl. pose proof (uint_digits (Pos.to_uint p)) as Hd.
    pose proof (DecimalPos.Unsigned.to_uint_nonnil p) as Hne.
    unfold NilZero.string_of_uint.
    destruct (Pos.to_uint p) eqn:Eu; try congruence;
      simpl in Hd |- *; eexists _, _; repeat split; exact Hd.
  - lia.
Qed.

Lemma skip_digits_app (r rest : str) :
  forallb is_digit r = true ->
  skip_digits (r ++ 46%N :: rest) = 46%N :: rest.
Proof.
  induction r as [|c r IH]; simpl; [reflexivity|].
  rewrite andb_true_iff. intros [-> Hr]. auto.
Qed.

Lemma digits_one_line (r : str) :
  forallb is_digit r = true -> one_line r = true.
Proof.
  induction r as [|c r IH]; simpl; [reflexivity|].
  rewrite !andb_true_iff. intros [Hc Hr]. split; [|auto].
  unfold is_digit in Hc. rewrite andb_true_iff, !N.leb_le in Hc.
  apply negb_true_iff, N.eqb_neq. lia.
Qed.

Lemma dec_one_line (i : nat) : one_line (dec (Z.of_nat i)) = true.
Proof.
  destruct (dec_of_nat i) as (c & r & -> & Hc & Hr).
  apply (digits_one_line (c :: r)). simpl. now rewrite Hc, Hr.
Qed.

(** ** The items of a report, read as lines *)

Lemma numbered_definition_item (i : nat) (d : Definition_) :
  numbered_line (definition_item i d) = true.
Proof.
  unfold definition_item.
  destruct (dec_of_nat i) as (c & r & -> & Hc & Hr).
  change (numbered_line (32%N :: 32%N :: c :: r ++ 46%N :: 32%N
                           :: or_empty (definition d)) = true).
  simpl. rewrite Hc, skip_digits_app by exact Hr. reflexivity.
Qed.

Lemma word_line_definition_item (i : nat) (d : Definition_) :
  word_line (definition_item i d) = false.
Proof. reflexivity. Qed.

Lemma definition_item_one_line (i : nat) (d : Definition_) :
  one_line (or_empty (definition d)) = true ->
  one_line (definition_item i d) = true.
Proof.
  intros H. unfold definition_item.
  rewrite !one_line_app, dec_one_line, H. reflexivity.
Qed.

Lemma example_item_one_line (ex : str) :
  one_line ex = true -> one_line (example_item ex) = true.
Proof. intros H. unfold example_item. now rewrite one_line_app, H. Qed.

Lemma one_line_join (sep : str) (items : list str) :
  one_line sep = true ->
  forallb one_line items = true ->
  one_line (join sep items) = true.
Proof.
  intros Hsep. induction items as [|x rest IH]; [reflexivity|].
  simpl forallb. rewrite andb_true_iff. intros [Hx Hrest].
  destruct rest as [|y rest]; [exact Hx|].
  change (join sep (x :: y :: rest)) with (x ++ sep ++ join sep (y :: rest)).
  now rewrite !one_line_app, Hx, Hsep, IH.
Qed.

Lemma text_lines_app (a b : list str) :
  text_lines (a ++ b) = text_lines a ++ text_lines b.
Proof. apply flat_map_app. Qed.

Lemma text_lines_cons_one_line (x : str) (rest : list str) :
  one_line x = true -> text_lines (x :: rest) = x :: text_lines rest.
Proof.
  intros H. unfold text_lines. simpl. now rewrite split_one_line.
Qed.

Lemma lines_part_of_speech (label : str) :
  one_line label = true ->
  lines (nl ++ u8 "Part of speech: " ++ label)
  = [[]; u8 "Part of speech: " ++ label].
Proof.
  intros H. change (nl ++ u8 "Part of speech: " ++ label)
    with ([] ++ 10%N :: (u8 "Part of speech: " ++ label)).
  unfold lines. rewrite split_app.
  fold (lines (u8 "Part of speech: " ++ label)).
  rewrite (@split_one_line (u8 "Part of speech: " ++ label));
    [reflexivity|]. now rewrite one_line_app, H.
Qed.

(** ** The formatter on a response of the documented shape *)

Section Formatter.

Variable rt : runtime.

Lemma for_each_items {A B} (g : A -> B) (f : A -> list str)
    (body : B -> list str -> result (list str)) :
  (forall x out, body (g x) out = Ok (out ++ f x)) ->
  forall xs out, for_each (map g xs) body out = Ok (out ++ flat_map f xs).
Proof.
  intros Hbody. induction xs as [|x xs IH]; intros out;
    cbn [map for_each flat_map].
  - now rewrite app_nil_r.
  - rewrite Hbody. cbn [bind]. rewrite IH. now rewrite app_assoc.
Qed.

Lemma definition_lines_items (i : nat) (d : Definition_) (out : list str) :
  definition_lines rt (i, definition_json d) out
  = Ok (out ++ definition_items (i, d)).
Proof.
  destruct d as [[df|] [[|c ex]|]]; unfold definition_items; simpl;
    try reflexivity; now rewrite <- app_assoc.
Qed.

Lemma definitions_loop (ds : list Definition_) :
  forall (start : nat) (out : list str),
    for_each (enumerate start (map definition_json ds))
      (definition_lines rt) out
    = Ok (out ++ flat_map definition_items (enumerate start ds)).
Proof.
  induction ds as [|d ds IH]; intros start out;
    cbn [enumerate map for_each flat_map].
  - now rewrite app_nil_r.
  - rewrite definition_lines_items. cbn [bind]. rewrite IH.
    now rewrite <- !app_assoc.
Qed.

Lemma get_partOfSpeech (m : Meaning) :
  py_get (meaning_json m) (u8 "partOfSpeech") (JStr [])
  = Ok (JStr (or_empty (partOfSpeech m))).
Proof. destruct m as [[p|] [ds|]]; reflexivity. Qed.

Lemma get_definitions (m : Meaning) :
  py_get (meaning_json m) (u8 "definitions") (JList [])
  = Ok (JList (map definition_json (all_definitions m))).
Proof. destruct m as [[p|] [ds|]]; reflexivity. Qed.

Lemma meaning_lines_items (m : Meaning) (out : list str) :
  meaning_lines rt (meaning_json m) out = Ok (out ++ meaning_items m).
Proof.
  unfold meaning_lines. rewrite get_partOfSpeech. cbn [bind].
  rewrite get_definitions. cbn [bind py_iter]. rewrite definitions_loop.
  unfold meaning_items. cbn [fmt]. now rewrite <- app_assoc.
Qed.

Lemma phonetic_texts_strings (ps : list Phonetic) :
  phonetic_texts (map phonetic_json ps)
  = Ok (map JStr (filter nonempty (map (fun p => or_empty (text p)) ps))).
Proof.
  induction ps as [|p ps IH]; [reflexivity|].
  assert (Hget : forall dflt,
             py_get (phonetic_json p) (u8 "text") dflt
             = Ok (match text p with Some t => JStr t | None => dflt end)).
  { intros dflt. destruct p as [[t|]]; reflexivity. }
  cbn [map phonetic_texts]. rewrite !Hget.
  destruct p as [[[|c t]|]]; cbn [bind truthy text or_empty filter nonempty];
    rewrite IH; reflexivity.
Qed.

Lemma py_join_strings (sep : str) (items : list str) :
  py_join sep (map JStr items) = Ok (join sep items).
Proof.
  induction items as [|x rest IH]; [reflexivity|].
  destruct rest as [|y rest]; [reflexivity|].
  change (py_join sep (map JStr (x :: y :: rest)))
    with (r <- py_join sep (map JStr (y :: rest)) ;; Ok (x ++ sep ++ r)).
  now rewrite IH.
Qed.

Lemma in_word (e : Entry) :
  py_in (u8 "word") (entry_json e)
  = Ok (match word e with Some _ => true | None => false end).
Proof. destruct e as [[w|] [ps|] [ms|]]; reflexivity. Qed.

Lemma get_word (e : Entry) :
  py_get (entry_json e) (u8 "word") JNull
  = Ok (match word e with Some w => JStr w | None => JNull end).
Proof. destruct e as [[w|] [ps|] [ms|]]; reflexivity. Qed.

Lemma in_phonetics (e : Entry) :
  py_in (u8 "phonetics") (entry_json e)
  = Ok (match phonetics e with Some _ => true | None => false end).
Proof. destruct e as [[w|] [ps|] [ms|]]; reflexivity. Qed.

Lemma getitem_phonetics (e : Entry) (ps : list Phonetic) :
  phonetics e = Some ps ->
  py_getitem (entry_json e) (u8 "phonetics")
  = Ok (JList (map phonetic_json ps)).
Proof.
  destruct e as [[w|] [ps'|] [ms|]]; simpl; intros H; inversion H;
    reflexivity.
Qed.

Lemma in_meanings (e : Entry) :
  py_in (u8 "meanings") (entry_json e)
  = Ok (match meanings e with Some _ => true | None => false end).
Proof. destruct e as [[w|] [ps|] [ms|]]; reflexivity. Qed.

Lemma getitem_meanings (e : Entry) (ms : list Meaning) :
  meanings e = Some ms ->
  py_getitem (entry_json e) (u8 "meanings")
  = Ok (JList (map meaning_json ms)).
Proof.
  destruct e as [[w|] [ps|] [ms'|]]; simpl; intros H; inversion H;
    reflexivity.
Qed.

Lemma entry_lines_items (e : Entry) (out : list str) :
  entry_lines rt (entry_json e) out = Ok (out ++ entry_items e).
Proof.
  unfold entry_lines, entry_items, phonetic_strings, all_meanings.
  rewrite in_word, get_word, in_phonetics, in_meanings.
  destruct (word e) as [w|] eqn:Ew;
    destruct (phonetics e) as [ps|] eqn:Ep;
    destruct (meanings e) as [ms|] eqn:Em.
  all: try rewrite (@getitem_phonetics e ps Ep).
  all: try rewrite (@getitem_meanings e ms Em).
  all: cbn [bind fmt py_iter].
  all: try (rewrite phonetic_texts_strings; cbn [bind];
            rewrite py_join_strings;
            destruct ps as [|p ps];
            [ cbn [truthy map filter bind]
            | change (truthy (JList (map phonetic_json (p :: ps))))
                with true; cbv iota;
              generalize (filter nonempty
                            (map (fun p => or_empty (text p)) (p :: ps)));
              intros [|s ss]; cbn [map bind] ]).
  all: try rewrite (for_each_items meaning_json meaning_items
                      (meaning_lines rt) meaning_lines_items).
  all: cbn [flat_map]; rewrite <- ?app_assoc, ?app_nil_r; reflexivity.
Qed.

Lemma collect_lines_items (es : list Entry) :
  collect_lines rt (response_json es) = Ok (report_items es).
Proof.
  unfold collect_lines, response_json, report_items. cbn [py_iter bind].
  now rewrite (for_each_items entry_json entry_items
                 (entry_lines rt) entry_lines_items).
Qed.

(** On a response of the documented shape the formatter returns the items
    of the specification joined by newlines, or [None] when there is no
    item. *)
Lemma format_response_items (es : list Entry) :
  format_response rt
    {| status_code := 200; json_body := Ok (response_json es) |}
  = Ok (match report_items es with
        | [] => None
        | items => Some (join nl items)
        end).
Proof.
  unfold format_response. cbn [json_body bind].
  rewrite collect_lines_items. cbn [bind].
  destruct (report_items es); reflexivity.
Qed.

End Formatter.

(* ================================================================== *)
(** ** The lookup service *)

Section LookupProperties.

Variable rt : runtime.

(** C2. For the HTTP 200 response with the single entry for [run], the
    formatting step returns exactly the six lines [Word: run],
    [Pronunciation: /rʌn/], an empty line, [Part of speech: verb],
    [  1. move fast] and [     e.g., She ran.], joined by newlines, and
    that text is what [lookup_word_api] returns. *)
Theorem run_report :
  let report :=
    join nl
      [u8 "Word: run"; u8 "Pronunciation: /rʌn/"; [];
       u8 "Part of speech: verb"; u8 "  1. move fast";
       u8 "     e.g., She ran."] in
  format_response rt run_response = Ok (Some report)
  /\ lookup_word_api rt (always run_response) (u8 "run") = Ok (Some report).
Proof. split; reflexivity. Qed.

(** C7, as the code has it. For every HTTP response whose status is
    neither 200 nor 404, [lookup_word_api] returns the string
    [Unexpected API response: <status>], where [<status>] is the status
    code in decimal. *)
Theorem unexpected_status (net : network) (selection q : str) (r : response) :
  quote selection = Ok q ->
  net (DICTIONARY_API ++ q) = Ok r ->
  status_code r <> 200%Z ->
  status_code r <> 404%Z ->
  lookup_word_api rt net selection
  = Ok (Some (u8 "Unexpected API response: " ++ dec (status_code r))).
Proof.
  intros Hq Hnet H200 H404. unfold lookup_word_api.
  rewrite Hq. cbn [bind]. rewrite Hnet.
  apply Z.eqb_neq in H200, H404. now rewrite H200, H404.
Qed.

End LookupProperties.

Lemma unexpected_status_witness :
  lookup_word_api example_runtime (always server_error) (u8 "run")
  = Ok (Some (u8 "Unexpected API response: 500")).
Proof.
  apply (@unexpected_status example_runtime (always server_error)
           (u8 "run") (u8 "run") server_error);
    [reflexivity | reflexivity | discriminate | discriminate].
Defined.

(** C7 as the specification words it fails: on a response with status 500
    the returned text is not [Unexpected response: 500]. *)
Lemma unexpected_status_wording :
  status_code server_error <> 200%Z /\
  status_code server_error <> 404%Z /\
  lookup_word_api example_runtime (always server_error) (u8 "run")
  <> Ok (Some (u8 "Unexpected response: " ++ dec (status_code server_error))).
Proof. repeat split; discriminate. Qed.

(* ================================================================== *)
(** ** Dispatch of a lookup result *)

Lemma handle_none (st : app_state) (selection : str) :
  _handle_lookup_result st selection None
  = Ok (add_notice st
          (information (u8 "Not found")
             (u8 "No such word exists: " ++ dq ++ selection ++ dq))).
Proof. reflexivity. Qed.

Lemma handle_text (st : app_state) (selection s : str) :
  startswith ERROR_MARK s = false ->
  _handle_lookup_result st selection (Some s)
  = Ok {| open_windows :=
            open_windows st
              ++ [{| wid := next_wid st;
                     win_title := u8 "Meaning: " ++ selection;
                     win_text := s |}];
          live :=
            live st
              ++ [{| wid := next_wid st;
                     win_title := u8 "Meaning: " ++ selection;
                     win_text := s |}];
          visible :=
            visible st
              ++ [{| wid := next_wid st;
                     win_title := u8 "Meaning: " ++ selection;
                     win_text := s |}];
          notices := notices st;
          next_wid := S (next_wid st) |}.
Proof. intros H. unfold _handle_lookup_result. now rewrite H. Qed.

Lemma error_message_unmarked (s : str) :
  is_error_message s = true -> startswith ERROR_MARK s = false.
Proof.
  unfold is_error_message. rewrite !orb_true_iff, !startswith_spec.
  intros [[[r ->]|[r ->]]|[r ->]]; reflexivity.
Qed.

(** C5. When the provider answers a lookup with HTTP 404,
    [lookup_word_api] returns [None] (not found), and the handler of that
    result shows one information notice whose text is
    [No such word exists: "<selection>"] with the original selection; the
    list of result windows and the windows on screen stay as they were. *)
Theorem not_found_notice (rt : runtime) (net : network) (st : app_state)
    (selection q : str) (r : response) :
  quote selection = Ok q ->
  net (DICTIONARY_API ++ q) = Ok r ->
  status_code r = 404%Z ->
  lookup_word_api rt net selection = Ok None
  /\ bg_lookup rt net selection = (selection, None)
  /\ exists st',
       _handle_lookup_result st selection None = Ok st'
       /\ notices st'
          = notices st
              ++ [information (u8 "Not found")
                    (u8 "No such word exists: " ++ dq ++ selection ++ dq)]
       /\ open_windows st' = open_windows st
       /\ live st' = live st
       /\ visible st' = visible st.
Proof.
  intros Hq Hnet H404.
  assert (Hl : lookup_word_api rt net selection = Ok None).
  { unfold lookup_word_api. rewrite Hq. cbn [bind]. rewrite Hnet, H404.
    reflexivity. }
  split; [exact Hl|]. split; [unfold bg_lookup; now rewrite Hl|].
  eexists. split; [apply handle_none|]. repeat split.
Qed.

Lemma not_found_notice_witness :
  lookup_word_api example_runtime (always not_found) (u8 "xyzzyqq") = Ok None
  /\ exists st',
       _handle_lookup_result init_state (u8 "xyzzyqq") None = Ok st'
       /\ notices st'
          = [information (u8 "Not found")
               (u8 "No such word exists: " ++ dq ++ u8 "xyzzyqq" ++ dq)]
       /\ open_windows st' = [].
Proof.
  destruct (@not_found_notice example_runtime (always not_found) init_state
              (u8 "xyzzyqq") (u8 "xyzzyqq") not_found)
    as (Hl & _ & st' & Hh & Hn & Ho & _);
    [reflexivity | reflexivity | reflexivity |].
  split; [exact Hl|]. exists st'. repeat split; assumption.
Defined.

(** The texts [lookup_word_api] returns for its three kinds of error are
    handled like a report: the handler opens a result window with the text
    and shows no notice. *)
Lemma error_message_opens_window (st : app_state) (selection s : str) :
  is_error_message s = true ->
  exists st',
    _handle_lookup_result st selection (Some s) = Ok st'
    /\ notices st' = notices st
    /\ open_windows st'
       = open_windows st
           ++ [{| wid := next_wid st;
                  win_title := u8 "Meaning: " ++ selection;
                  win_text := s |}].
Proof.
  intros H. eexists. split.
  - apply handle_text, error_message_unmarked, H.
  - split; reflexivity.
Qed.

(** C1, checked on the code. For a network timeout, a response with
    status 500 and a response with status 200 whose body does not parse,
    the result that reaches the handler is the plain error text; the
    handler shows no critical notice and opens a result window titled
    [Meaning: run] that holds the error text. *)
Theorem error_reply_opens_window :
  shown_as_report timing_out
  /\ shown_as_report (always server_error)
  /\ shown_as_report (always unparsable).
Proof.
  repeat split; eexists; eexists;
    (split; [vm_compute; reflexivity|]);
    (split; [reflexivity|]);
    (split; [vm_compute; reflexivity|]);
    repeat split.
Qed.

(* ================================================================== *)
(** ** Selection capture *)

Lemma copy_never_raises (env : capture_env) :
  try_except (try_except (copy_hotkey env) (fun _ => copy_keys env))
    (fun _ => Ok tt) = Ok tt.
Proof.
  destruct (copy_hotkey env) as [[]|]; [reflexivity|].
  cbn [try_except]. destruct (copy_keys env) as [[]|]; reflexivity.
Qed.

Lemma worker_unfold (env : capture_env) :
  _on_hotkey_press_worker env
  = Ok (match try_except (paste env) (fun _ => Ok []) with
        | Ok (c :: s) =>
            match strip (c :: s) with
            | [] => NoSelection no_selection_title no_selection_text
            | _ => RequestLookup (strip (c :: s))
            end
        | _ => NoSelection no_selection_title no_selection_text
        end).
Proof.
  unfold _on_hotkey_press_worker. rewrite copy_never_raises. cbn [bind].
  destruct (paste env) as [[|c s]|e]; cbn [try_except bind];
    try reflexivity.
  destruct (strip (c :: s)); reflexivity.
Qed.

(** C6. Whatever the copy keystroke did: when reading the clipboard
    raises, or the clipboard text is empty or all whitespace, the worker
    only posts the "No selection" notice and emits no lookup request; and
    whenever it emits a lookup request, the text of the request is the
    clipboard text stripped, and it is not empty. *)
Theorem capture_selection (env : capture_env) :
  (forall e, paste env = Raise e ->
     _on_hotkey_press_worker env
     = Ok (NoSelection no_selection_title no_selection_text))
  /\ (forall s, paste env = Ok s -> forallb isspace s = true ->
        _on_hotkey_press_worker env
        = Ok (NoSelection no_selection_title no_selection_text))
  /\ (forall selection,
        _on_hotkey_press_worker env = Ok (RequestLookup selection) ->
        exists s,
          paste env = Ok s /\ selection = strip s /\ selection <> []).
Proof.
  rewrite worker_unfold. repeat split.
  - intros e ->. reflexivity.
  - intros s -> Hs. cbn [try_except]. destruct s as [|c s]; [reflexivity|].
    now rewrite strip_spaces.
  - intros selection H.
    destruct (paste env) as [[|c s]|e]; cbn [try_except] in H;
      try discriminate.
    destruct (strip (c :: s)) as [|c' s'] eqn:E; [discriminate|].
    injection H as <-. exists (c :: s). repeat split; [now symmetry|].
    discriminate.
Qed.

Lemma capture_selection_witness :
  _on_hotkey_press_worker
    {| copy_hotkey := Raise (LibraryError 4); copy_keys := Ok tt;
       paste := Ok (u8 "  ") |}
  = Ok (NoSelection no_selection_title no_selection_text)
  /\ exists s,
       Ok (u8 " run ") = Ok s /\ u8 "run" = strip s /\ u8 "run" <> [].
Proof.
  split.
  - apply (proj1 (proj2 (capture_selection _)) (u8 "  "));
      reflexivity.
  - apply (proj2 (proj2 (capture_selection
                           {| copy_hotkey := Ok tt; copy_keys := Ok tt;
                              paste := Ok (u8 " run ") |})) (u8 "run"));
      reflexivity.
Defined.

(* ================================================================== *)
(** ** The list [open_windows] *)

Lemma list_in_spec (w : ResultWindow) (l : list ResultWindow) :
  list_in w l = true <-> In (wid w) (map wid l).
Proof.
  unfold list_in. rewrite existsb_exists, in_map_iff. unfold same_object.
  split; intros (x & H1 & H2).
  - exists x. apply Nat.eqb_eq in H2. auto.
  - exists x. split; [assumption | now apply Nat.eqb_eq].
Qed.

Lemma list_in_false (w : ResultWindow) (l : list ResultWindow) :
  list_in w l = false <-> ~ In (wid w) (map wid l).
Proof.
  rewrite <- list_in_spec. destruct (list_in w l); split; congruence.
Qed.

Lemma list_remove_split (w : ResultWindow) (l l' : list ResultWindow) :
  list_remove w l = Ok l' ->
  exists a x b,
    l = a ++ x :: b /\ l' = a ++ b /\ same_object x w = true
    /\ list_in w a = false.
Proof.
  revert l'. induction l as [|y l IH]; intros l'; simpl; [discriminate|].
  destruct (same_object y w) eqn:E.
  - intros H; injection H as <-. exists [], y, l. auto.
  - destruct (list_remove w l) as [l0|e]; [|discriminate].
    cbn [bind]. intros H; injection H as <-.
    destruct (IH l0 eq_refl) as (a & x & b & -> & -> & Hx & Ha).
    exists (y :: a), x, b. repeat split; auto.
    unfold list_in in *. simpl. now rewrite E, Ha.
Qed.

Lemma list_remove_present (w : ResultWindow) (l : list ResultWindow) :
  list_in w l = true -> exists l', list_remove w l = Ok l'.
Proof.
  unfold list_in. induction l as [|y l IH]; simpl; [discriminate|].
  destruct (same_object y w); [eauto|]. simpl. intros H.
  destruct (IH H) as (l' & ->). cbn [bind]. eauto.
Qed.

(** The two ways [_remove_window_ref] ends: the object is not listed and
    nothing changes, or its first listing is dropped.  It never raises. *)
Lemma remove_window_ref_cases (st : app_state) (w : ResultWindow) :
  (list_in w (open_windows st) = false /\ _remove_window_ref st w = Ok st)
  \/ (exists a x b,
        open_windows st = a ++ x :: b /\ same_object x w = true
        /\ list_in w a = false
        /\ _remove_window_ref st w = Ok (set_open_windows st (a ++ b))).
Proof.
  unfold _remove_window_ref.
  destruct (list_in w (open_windows st)) eqn:E; [right | left; auto].
  destruct (list_remove_present _ _ E) as (l' & Hl). rewrite Hl.
  destruct (list_remove_split _ _ Hl) as (a & x & b & H1 & -> & H3 & H4).
  exists a, x, b. auto.
Qed.

Lemma distinct_removed (w x : ResultWindow) (a b : list ResultWindow) :
  distinct (a ++ x :: b) -> same_object x w = true ->
  distinct (a ++ b) /\ list_in w (a ++ b) = false.
Proof.
  unfold distinct, same_object. rewrite !map_app. cbn [map].
  intros Hnd Hx. apply Nat.eqb_eq in Hx. split.
  - eapply NoDup_remove_1; eassumption.
  - apply list_in_false. rewrite map_app, <- Hx.
    eapply NoDup_remove_2; eassumption.
Qed.

Lemma without_In (w x : ResultWindow) (l : list ResultWindow) :
  In x (without w l) <-> In x l /\ same_object x w = false.
Proof.
  unfold without. rewrite filter_In, negb_true_iff. reflexivity.
Qed.

Lemma remove_keeps_others (st st' : app_state) (w x : ResultWindow) :
  _remove_window_ref st w = Ok st' ->
  In x (open_windows st) -> same_object x w = false ->
  In x (open_windows st').
Proof.
  intros Hr Hin Hx.
  destruct (remove_window_ref_cases st w)
    as [[_ E]|(a & y & b & Ho & Hy & _ & E)];
    rewrite E in Hr; injection Hr as <-; [assumption|].
  cbn [open_windows set_open_windows]. rewrite Ho in Hin.
  apply in_app_or in Hin. apply in_or_app.
  destruct Hin as [|[->|]]; auto. congruence.
Qed.

Lemma remove_fields (st st' : app_state) (w : ResultWindow) :
  _remove_window_ref st w = Ok st' ->
  live st' = live st /\ visible st' = visible st
  /\ next_wid st' = next_wid st /\ notices st' = notices st
  /\ (forall x, In x (open_windows st') -> In x (open_windows st))
  /\ (distinct (open_windows st) -> distinct (open_windows st')).
Proof.
  intros Hr.
  destruct (remove_window_ref_cases st w)
    as [[_ E]|(a & y & b & Ho & Hy & _ & E)];
    rewrite E in Hr; injection Hr as <-; [repeat split; auto|].
  cbn [open_windows live visible next_wid notices set_open_windows].
  repeat split.
  - intros x Hx. rewrite Ho. apply in_app_or in Hx. apply in_or_app.
    destruct Hx; [left | right; right]; assumption.
  - rewrite Ho. intros Hd. now destruct (distinct_removed _ _ _ _ Hd Hy).
Qed.

Lemma handle_cases (st st' : app_state) (selection : str)
    (res : option str) :
  _handle_lookup_result st selection res = Ok st' ->
  (open_windows st' = open_windows st /\ live st' = live st
   /\ visible st' = visible st /\ next_wid st' = next_wid st)
  \/ (exists text,
        res = Some text /\ startswith ERROR_MARK text = false
        /\ st' = {| open_windows :=
                      open_windows st
                        ++ [{| wid := next_wid st;
                               win_title := u8 "Meaning: " ++ selection;
                               win_text := text |}];
                    live :=
                      live st
                        ++ [{| wid := next_wid st;
                               win_title := u8 "Meaning: " ++ selection;
                               win_text := text |}];
                    visible :=
                      visible st
                        ++ [{| wid := next_wid st;
                               win_title := u8 "Meaning: " ++ selection;
                               win_text := text |}];
                    notices := notices st;
                    next_wid := S (next_wid st) |}).
Proof.
  unfold _handle_lookup_result. destruct res as [s|].
  - destruct (startswith ERROR_MARK s) eqn:E.
    + destruct (py_index (split1 58%N s) 1); cbn [bind]; [|discriminate].
      intros H; injection H as <-. left. repeat split.
    + intros H; injection H as <-. right. exists s. auto.
  - intros H; injection H as <-. left. repeat split.
Qed.

Lemma registry_ok_step (st st' : app_state) (ev : event) :
  registry_ok st -> step st ev st' -> registry_ok st'.
Proof.
  intros (Hd & Hb & Hl & Hv) Hstep. destruct Hstep as
    [st selection res st' Hh | st w Hin | st w st1 Hin Hr].
  - destruct (handle_cases _ _ _ Hh)
      as [(Eo & El & Ev & En)|(text & _ & _ & ->)].
    + unfold registry_ok. rewrite Eo, El, Ev, En. auto.
    + unfold registry_ok.
      cbn [open_windows live visible next_wid]. repeat split.
      * unfold distinct. rewrite map_app. cbn [map wid].
        apply NoDup_app; [exact Hd | repeat constructor; intros [] |].
        intros n Hn [<-|[]]. apply in_map_iff in Hn.
        destruct Hn as (x & Hx & Hxin). specialize (Hb x Hxin). lia.
      * intros x Hx. apply in_app_or in Hx.
        destruct Hx as [Hx|[<-|[]]]; [specialize (Hb x Hx); lia|].
        cbn [wid]. lia.
      * apply incl_app_app; [exact Hl | apply incl_refl].
      * apply incl_app_app; [exact Hv | apply incl_refl].
  - unfold registry_ok. cbn [open_windows live visible next_wid].
    repeat split; auto.
    intros x Hx. apply without_In in Hx. apply Hv, Hx.
  - destruct (remove_fields _ _ Hr) as (El & Ev & En & _ & Hsub & Hdis).
    unfold registry_ok. cbn [open_windows live visible next_wid].
    rewrite El, Ev, En. repeat split.
    + auto.
    + intros x Hx. apply Hb, Hsub, Hx.
    + intros x Hx. apply without_In in Hx. destruct Hx as [Hx Hne].
      eapply remove_keeps_others; [exact Hr | | exact Hne].
      apply Hl, Hx.
    + intros x Hx. apply without_In in Hx. destruct Hx as [Hx Hne].
      apply without_In. split; [apply Hv, Hx | exact Hne].
Qed.

Lemma reachable_registry_ok (st : app_state) :
  reachable st -> registry_ok st.
Proof.
  induction 1 as [|st ev st' _ IH Hstep].
  - unfold registry_ok, distinct, init_state. cbn.
    repeat split; try (intros ? []); try apply incl_refl. constructor.
  - eapply registry_ok_step; eassumption.
Qed.

Lemma reachable_one_window : reachable one_window.
Proof.
  apply (@reachable_step init_state
           (LookupResult (u8 "run") (Some (u8 "Word: run")))).
  - apply reachable_init.
  - apply step_lookup_result. reflexivity.
Qed.

(** Without the guarantee that no object is listed twice a second removal
    would drop a second listing; no state of the application has such a
    list. *)
Remark duplicate_listing_not_idempotent :
  let w := {| wid := 0; win_title := []; win_text := [] |} in
  list_remove w [w; w] = Ok [w] /\ list_remove w [w] = Ok [].
Proof. split; reflexivity. Qed.

(** C8. In every state of the application and for every window object
    [w], removing [w] from [open_windows] raises no error, whether [w] is
    listed or not; removing it a second time changes nothing; at most one
    entry is dropped; and [w] is not listed afterwards. *)
Theorem remove_window_ref_idempotent (st : app_state) (w : ResultWindow) :
  reachable st ->
  exists st1,
    _remove_window_ref st w = Ok st1
    /\ _remove_window_ref st1 w = Ok st1
    /\ length (open_windows st) <= S (length (open_windows st1))
    /\ length (open_windows st1) <= length (open_windows st)
    /\ list_in w (open_windows st1) = false.
Proof.
  intros Hreach.
  destruct (reachable_registry_ok Hreach) as (Hd & _).
  destruct (remove_window_ref_cases st w)
    as [[Hout E]|(a & x & b & Ho & Hx & _ & E)].
  - exists st. repeat split; auto.
  - exists (set_open_windows st (a ++ b)). rewrite Ho in Hd.
    destruct (distinct_removed _ _ _ _ Hd Hx) as [_ Hgone].
    repeat split; [exact E | | | | exact Hgone].
    + unfold _remove_window_ref. cbn [open_windows set_open_windows].
      now rewrite Hgone.
    + rewrite Ho. cbn [open_windows set_open_windows].
      rewrite !length_app. cbn [length]. lia.
    + rewrite Ho. cbn [open_windows set_open_windows].
      rewrite !length_app. cbn [length]. lia.
Qed.

Lemma remove_window_ref_idempotent_witness :
  let w := {| wid := 0; win_title := u8 "Meaning: run";
              win_text := u8 "Word: run" |} in
  exists st1,
    _remove_window_ref one_window w = Ok st1
    /\ _remove_window_ref st1 w = Ok st1
    /\ length (open_windows one_window) <= S (length (open_windows st1))
    /\ length (open_windows st1) <= length (open_windows one_window)
    /\ list_in w (open_windows st1) = false.
Proof.
  exact (@remove_window_ref_idempotent one_window
           {| wid := 0; win_title := u8 "Meaning: run";
              win_text := u8 "Word: run" |} reachable_one_window).
Defined.

(** C9. In every state of the application every window on screen is a
    live window and every live window is listed in [open_windows]; the
    window created when a report is dispatched is on screen and listed;
    and a listed window stays listed across every event other than the
    destruction of that window. *)
Theorem open_surfaces_tracked (st : app_state) :
  reachable st ->
  (forall w, In w (visible st) -> In w (live st))
  /\ (forall w, In w (live st) -> In w (open_windows st))
  /\ (forall selection report st',
        startswith ERROR_MARK report = false ->
        _handle_lookup_result st selection (Some report) = Ok st' ->
        exists w,
          win_text w = report /\ In w (visible st')
          /\ In w (open_windows st'))
  /\ (forall ev st' w,
        step st ev st' ->
        In w (open_windows st) ->
        (forall w', ev = Destroyed w' -> same_object w w' = false) ->
        In w (open_windows st')).
Proof.
  intros Hreach.
  destruct (reachable_registry_ok Hreach) as (_ & _ & Hl & Hv).
  split; [exact Hv|]. split; [exact Hl|]. split.
  - intros selection report st' Hm Hh.
    rewrite (@handle_text st selection report Hm) in Hh.
    injection Hh as <-.
    exists {| wid := next_wid st; win_title := u8 "Meaning: " ++ selection;
              win_text := report |}.
    cbn [open_windows visible]. split; [reflexivity|].
    split; apply in_or_app; right; left; reflexivity.
  - intros ev st' w Hstep Hin Hev.
    destruct Hstep as [st selection res st' Hh | st x Hx | st x st1 Hx Hr].
    + destruct (handle_cases _ _ _ Hh) as [(-> & _)|(text & _ & _ & ->)];
        [assumption|].
      cbn [open_windows]. apply in_or_app. left. assumption.
    + assumption.
    + cbn [open_windows].
      eapply remove_keeps_others; [exact Hr | exact Hin |].
      apply Hev. reflexivity.
Qed.

Lemma open_surfaces_tracked_witness :
  (forall w, In w (visible one_window) -> In w (live one_window))
  /\ (forall w, In w (live one_window) -> In w (open_windows one_window)).
Proof.
  destruct (@open_surfaces_tracked one_window reachable_one_window)
    as (H1 & H2 & _).
  split; assumption.
Defined.

(* ================================================================== *)
(** ** The lookup never confuses a report with an error text *)

Lemma bind_ok {A B} (c : result A) (k : A -> result B) (b : B) :
  bind c k = Ok b -> exists a, c = Ok a /\ k a = Ok b.
Proof. destruct c as [a|e]; simpl; [eauto | discriminate]. Qed.

Ltac bind_inv H :=
  let a := fresh "a" in
  let E := fresh "E" in
  apply bind_ok in H; destruct H as (a & E & H).

Lemma extends_refl (out : list str) : extends out out.
Proof. exists []. now rewrite app_nil_r. Qed.

Lemma extends_trans (a b c : list str) :
  extends a b -> extends b c -> extends a c.
Proof.
  intros [s1 ->] [s2 ->]. exists (s1 ++ s2). now rewrite app_assoc.
Qed.

Lemma grows_refl (out : list str) : grows out out.
Proof. now left. Qed.

Lemma grows_trans (a b c : list str) : grows a b -> grows b c -> grows a c.
Proof.
  intros [->|(h & s1 & -> & Hh)] Hbc; [exact Hbc|].
  right. destruct Hbc as [->|(h' & s2 & -> & _)].
  - eauto.
  - exists h, (s1 ++ h' :: s2). split; [|exact Hh].
    now rewrite <- app_assoc.
Qed.

Lemma grows_extends (a c : list str) (h : str) :
  report_head h = true -> extends (a ++ [h]) c -> grows a c.
Proof.
  intros Hh [s ->]. right. exists h, s. split; [|exact Hh].
  now rewrite <- app_assoc.
Qed.

Lemma for_each_extends {A} (body : A -> list str -> result (list str))
    (xs : list A) :
  (forall x out out', body x out = Ok out' -> extends out out') ->
  forall out out', for_each xs body out = Ok out' -> extends out out'.
Proof.
  intros Hbody. induction xs as [|x xs IH]; intros out out' H;
    cbn [for_each] in H.
  - injection H as <-. apply extends_refl.
  - bind_inv H. eapply extends_trans; eauto.
Qed.

Lemma for_each_grows {A} (body : A -> list str -> result (list str))
    (xs : list A) :
  (forall x out out', body x out = Ok out' -> grows out out') ->
  forall out out', for_each xs body out = Ok out' -> grows out out'.
Proof.
  intros Hbody. induction xs as [|x xs IH]; intros out out' H;
    cbn [for_each] in H.
  - injection H as <-. apply grows_refl.
  - bind_inv H. eapply grows_trans; eauto.
Qed.

Section Heads.

Variable rt : runtime.

Lemma definition_lines_extends (idef : nat * json) (out out' : list str) :
  definition_lines rt idef out = Ok out' -> extends out out'.
Proof.
  unfold definition_lines. destruct idef as [i defn]. intros H.
  bind_inv H. bind_inv H.
  destruct (truthy a0); injection H as <-.
  - eexists. now rewrite <- app_assoc.
  - eexists. reflexivity.
Qed.

Lemma meaning_lines_extends (meaning : json) (out out' : list str) :
  meaning_lines rt meaning out = Ok out' ->
  extends
    (out ++ [nl ++ u8 "Part of speech: "
               ++ fmt rt match meaning with
                         | JDict d =>
                             match dict_lookup (u8 "partOfSpeech") d with
                             | Some x => x
                             | None => JStr []
                             end
                         | _ => JNull
                         end]) out'.
Proof.
  unfold meaning_lines. intros H. bind_inv H. bind_inv H. bind_inv H.
  destruct meaning; try discriminate. injection E as <-.
  eapply for_each_extends; [|exact H].
  intros x o o'. apply definition_lines_extends.
Qed.

Lemma meaning_lines_grows (meaning : json) (out out' : list str) :
  meaning_lines rt meaning out = Ok out' -> grows out out'.
Proof.
  intros H. apply meaning_lines_extends in H.
  eapply grows_extends; [|exact H]. reflexivity.
Qed.

Lemma entry_lines_grows (entry : json) (out out' : list str) :
  entry_lines rt entry out = Ok out' -> grows out out'.
Proof.
  unfold entry_lines. intros H.
  bind_inv H. bind_inv H. bind_inv H. bind_inv H. bind_inv H. bind_inv H.
  assert (G1 : grows out a0).
  { destruct a.
    - bind_inv E0. injection E0 as <-.
      right. eexists _, []. split; reflexivity.
    - injection E0 as <-. apply grows_refl. }
  assert (G2 : grows a0 a3).
  { destruct a2.
    - bind_inv E3. bind_inv E3. bind_inv E3.
      destruct a6.
      + injection E3 as <-. apply grows_refl.
      + bind_inv E3. injection E3 as <-.
        right. eexists _, []. split; reflexivity.
    - injection E3 as <-. apply grows_refl. }
  assert (G3 : grows a3 out').
  { destruct a4.
    - bind_inv H. bind_inv H.
      eapply for_each_grows; [|exact H].
      intros x o o'. apply meaning_lines_grows.
    - injection H as <-. apply grows_refl. }
  eapply grows_trans; [exact G1|]. eapply grows_trans; eassumption.
Qed.

Lemma collect_lines_grows (data : json) (out : list str) :
  collect_lines rt data = Ok out -> grows [] out.
Proof.
  unfold collect_lines. intros H. bind_inv H.
  eapply for_each_grows; [|exact H].
  intros x o o'. apply entry_lines_grows.
Qed.

Lemma report_head_not_error (h post : str) :
  report_head h = true -> is_error_message (h ++ post) = false.
Proof.
  unfold report_head. rewrite !orb_true_iff, !startswith_spec.
  intros [[[r ->]|[r ->]]|[r ->]]; reflexivity.
Qed.

(** A report is never one of the error texts. *)
Lemma report_not_error (r : response) (report : str) :
  format_response rt r = Ok (Some report) ->
  is_error_message report = false.
Proof.
  unfold format_response. intros H. bind_inv H. bind_inv H.
  destruct (collect_lines_grows _ E0) as [->|(h & suffix & -> & Hh)];
    [discriminate|].
  cbn [app] in H. injection H as <-.
  destruct suffix as [|x suffix]; [rewrite <- (app_nil_r h)|];
    now apply report_head_not_error.
Qed.

Lemma encodable_quote (s : str) :
  encodable s = true -> exists q, quote s = Ok q.
Proof.
  unfold quote. intros H.
  assert (exists bs, utf8_encode s = Ok bs) as [bs ->].
  { induction s as [|c s IH]; [now exists []|].
    cbn [encodable forallb] in H. apply andb_true_iff in H.
    destruct H as [Hc Hs]. destruct (IH Hs) as [bs Hbs].
    cbn [utf8_encode]. rewrite Hbs.
    apply andb_true_iff in Hc. destruct Hc as [Hlt Hsur].
    apply negb_true_iff in Hsur.
    unfold utf8_encode_cp. rewrite Hsur, Hlt.
    destruct (c <? 0x80)%N; [cbn [bind]; eauto|].
    destruct (c <? 0x800)%N; [cbn [bind]; eauto|].
    destruct (c <? 0x10000)%N; cbn [bind]; eauto. }
  cbn [bind]. eauto.
Qed.

(** C4, as the code has it. For every text that UTF-8 can encode and for
    every answer of the network (an exception of [requests.get], any HTTP
    status, any body), [lookup_word_api] returns and does not raise, and
    the value it returns reads as exactly the outcome the answer calls
    for: a report for a 200 response that renders at least one item, not
    found for 404 and for a 200 response that renders nothing, and an
    error text for an exception, a body that fails to parse and any other
    status. *)
Theorem lookup_returns_outcome (net : network) (t : str) :
  encodable t = true ->
  exists q v,
    quote t = Ok q
    /\ lookup_word_api rt net t = Ok v
    /\ outcome_of v = expected_outcome rt (net (DICTIONARY_API ++ q)).
Proof.
  intros Henc. destruct (encodable_quote _ Henc) as [q Hq].
  exists q. unfold lookup_word_api, expected_outcome. rewrite Hq.
  cbn [bind]. destruct (net (DICTIONARY_API ++ q)) as [r|e].
  - destruct (status_code r =? 200)%Z.
    + destruct (format_response rt r) as [[report|]|e] eqn:E;
        eexists; (split; [reflexivity|]); (split; [reflexivity|]).
      * cbn [outcome_of]. now rewrite (report_not_error _ E).
      * reflexivity.
      * reflexivity.
    + destruct (status_code r =? 404)%Z;
        eexists; repeat split; reflexivity.
  - eexists. repeat split; reflexivity.
Qed.

End Heads.

Lemma lookup_returns_outcome_witness :
  exists q v,
    quote (u8 "run") = Ok q
    /\ lookup_word_api example_runtime timing_out (u8 "run") = Ok v
    /\ outcome_of v
       = expected_outcome example_runtime (timing_out (DICTIONARY_API ++ q)).
Proof.
  apply (@lookup_returns_outcome example_runtime timing_out (u8 "run")).
  reflexivity.
Defined.

(** C4 as the specification words it fails: for the one-character text
    that holds a lone surrogate, which is not empty and has no space to
    trim, [quote] raises before the [try] and the exception leaves
    [lookup_word_api]; the worker that called it reports the failure with
    the error mark. *)
Lemma lookup_raises_on_surrogate :
  strip [0xD800%N] = [0xD800%N]
  /\ lookup_word_api example_runtime (always run_response) [0xD800%N]
     = Raise (UnicodeEncodeError 0xD800)
  /\ bg_lookup example_runtime (always run_response) [0xD800%N]
     = ([0xD800%N], Some (ERROR_MARK ++ u8 "UnicodeEncodeError")).
Proof. repeat split. Qed.

(* ================================================================== *)
(** ** Where an item sits in a report *)

Lemma flat_map_split {A B} (f : A -> list B) (x : A) (l : list A) :
  In x l -> exists pre post, flat_map f l = pre ++ f x ++ post.
Proof.
  intros Hin. apply in_split in Hin. destruct Hin as (l1 & l2 & ->).
  exists (flat_map f l1), (flat_map f l2).
  rewrite flat_map_app. reflexivity.
Qed.

Lemma enumerate_nth {A} (xs : list A) :
  forall (start i : nat) (x : A),
    nth_error xs i = Some x -> In (start + i, x) (enumerate start xs).
Proof.
  induction xs as [|y xs IH]; intros start [|i] x H; simpl in H;
    try discriminate.
  - injection H as ->. left. f_equal. lia.
  - right. replace (start + S i) with (S start + i) by lia. now apply IH.
Qed.

Lemma enumerate_In {A} (xs : list A) :
  forall (start i : nat) (x : A),
    In (i, x) (enumerate start xs) -> In x xs.
Proof.
  induction xs as [|y xs IH]; intros start i x; simpl; [auto|].
  intros [H|H]; [injection H as _ ->; auto | eauto].
Qed.

Lemma enumerate_length {A} (xs : list A) :
  forall start, length (enumerate start xs) = length xs.
Proof. induction xs; intros; simpl; auto. Qed.

Lemma meaning_in_report (es : list Entry) (e : Entry) (m : Meaning) :
  In e es -> In m (all_meanings e) ->
  exists pre post, report_items es = pre ++ meaning_items m ++ post.
Proof.
  intros He Hm. unfold report_items.
  destruct (flat_map_split entry_items e es He) as (p1 & q1 & ->).
  destruct (flat_map_split meaning_items m _ Hm) as (p2 & q2 & E).
  unfold entry_items at 1. rewrite E.
  exists (p1
          ++ match word e with
             | Some w => [u8 "Word: " ++ w]
             | None => []
             end
          ++ match phonetic_strings e with
             | [] => []
             | ph => [u8 "Pronunciation: " ++ join (u8 ", ") ph]
             end
          ++ p2), (q2 ++ q1).
  rewrite <- !app_assoc. reflexivity.
Qed.

Lemma definition_in_report (es : list Entry) (e : Entry) (m : Meaning)
    (i : nat) (d : Definition_) :
  In e es -> In m (all_meanings e) ->
  nth_error (all_definitions m) i = Some d ->
  exists pre post,
    report_items es = pre ++ definition_items (S i, d) ++ post.
Proof.
  intros He Hm Hd.
  destruct (meaning_in_report es e m He Hm) as (p1 & q1 & ->).
  pose proof (enumerate_nth _ 1 _ Hd) as Hin. cbn [Nat.add] in Hin.
  destruct (flat_map_split definition_items _ _ Hin) as (p2 & q2 & E).
  unfold meaning_items. rewrite E.
  exists (p1 ++ (nl ++ u8 "Part of speech: " ++ or_empty (partOfSpeech m))
                 :: p2), (q2 ++ q1).
  rewrite <- !app_assoc. cbn [app]. rewrite <- !app_assoc. reflexivity.
Qed.



(* ================================================================== *)
(** ** A meaning rules out "not found" on any body *)

Section AnyBody.

Variable rt : runtime.

Lemma dict_lookup_in (k : str) (d : list (str * json)) (v : json) :
  dict_lookup k d = Some v ->
  existsb (fun kv => str_eqb k (fst kv)) d = true.
Proof.
  induction d as [|[k' v'] d IH]; simpl; [discriminate|].
  destruct (str_eqb k k'); [reflexivity | exact IH].
Qed.

Lemma grows_is_extends (a b : list str) : grows a b -> extends a b.
Proof.
  intros [->|(h & s & -> & _)]; [apply extends_refl | now exists (h :: s)].
Qed.

Lemma extends_nonempty (a b : list str) :
  a <> [] -> extends a b -> b <> [].
Proof. intros Ha [s ->]. destruct a; [congruence | discriminate]. Qed.

Lemma entry_with_meanings_nonempty (d : list (str * json)) (m : json)
    (ms : list json) (out out' : list str) :
  dict_lookup (u8 "meanings") d = Some (JList (m :: ms)) ->
  entry_lines rt (JDict d) out = Ok out' ->
  out' <> [].
Proof.
  intros Hd H. unfold entry_lines in H.
  bind_inv H. bind_inv H. bind_inv H. bind_inv H. bind_inv H. bind_inv H.
  cbn [py_in] in E4. rewrite (dict_lookup_in _ _ Hd) in E4.
  injection E4 as <-.
  cbn [py_getitem] in H. rewrite Hd in H. cbn [bind py_iter for_each] in H.
  bind_inv H. apply meaning_lines_extends in E4.
  apply (for_each_extends (meaning_lines rt) ms) in H.
  - eapply extends_nonempty; [|exact H].
    eapply extends_nonempty; [|exact E4]. now destruct a3.
  - intros x o o' Hx. apply grows_is_extends.
    eapply meaning_lines_grows; exact Hx.
Qed.

Lemma for_each_nonempty {A} (body : A -> list str -> result (list str))
    (x : A) (xs : list A) :
  In x xs ->
  (forall out out', body x out = Ok out' -> out' <> []) ->
  (forall y out out', body y out = Ok out' -> extends out out') ->
  forall out out', for_each xs body out = Ok out' -> out' <> [].
Proof.
  intros Hin Hx Hext. induction xs as [|y xs IH]; [destruct Hin|].
  intros out out' H. cbn [for_each] in H. bind_inv H.
  destruct Hin as [->|Hin].
  - apply (for_each_extends body xs Hext) in H.
    eapply extends_nonempty; [|exact H]. eapply Hx; exact E.
  - eapply IH; eassumption.
Qed.

(** X13. Whatever else the body of a 200 response holds, well formed or not:
    when it is a list with an entry whose [meanings] is a list with at
    least one item, the formatter does not return [None]. *)
Lemma meanings_never_not_found (r : response) (entries : list json)
    (d : list (str * json)) (m : json) (ms : list json) :
  json_body r = Ok (JList entries) ->
  In (JDict d) entries ->
  dict_lookup (u8 "meanings") d = Some (JList (m :: ms)) ->
  format_response rt r <> Ok None.
Proof.
  intros Hbody Hin Hd H. unfold format_response in H. rewrite Hbody in H.
  cbn [bind] in H. unfold collect_lines in H. cbn [py_iter bind] in H.
  bind_inv H.
  assert (Hne : a <> []).
  { eapply (for_each_nonempty (entry_lines rt) (JDict d) entries Hin);
      [| |exact E].
    - intros out out'. now apply entry_with_meanings_nonempty with (m := m) (ms := ms).
    - intros y out out' Hy. apply grows_is_extends.
      eapply entry_lines_grows; exact Hy. }
  destruct a; [congruence | discriminate].
Qed.

End AnyBody.

(* ================================================================== *)
(** ** Counting the lines of a report *)

Lemma count_cons (p : str -> bool) (x : str) (l : list str) :
  count p (x :: l) = (if p x then 1 else 0) + count p l.
Proof. unfold count. simpl. destruct (p x); reflexivity. Qed.

Lemma count_text_lines_app (p : str -> bool) (a b : list str) :
  count p (text_lines (a ++ b))
  = count p (text_lines a) + count p (text_lines b).
Proof. now rewrite text_lines_app, count_app. Qed.

Lemma count_text_lines_flat_map {A} (p : str -> bool) (f : A -> list str)
    (k : nat) (l : list A) :
  (forall x, In x l -> count p (text_lines (f x)) = k) ->
  count p (text_lines (flat_map f l)) = length l * k.
Proof.
  induction l as [|x l IH]; intros H; [reflexivity|].
  cbn [flat_map length]. rewrite count_text_lines_app.
  rewrite H by (left; reflexivity).
  rewrite IH by (intros; apply H; right; assumption). lia.
Qed.

Lemma text_lines_flat_map_id {A} (f : A -> list str) (l : list A) :
  (forall x, In x l -> text_lines (f x) = f x) ->
  text_lines (flat_map f l) = flat_map f l.
Proof.
  induction l as [|x l IH]; intros H; [reflexivity|].
  cbn [flat_map]. rewrite text_lines_app.
  rewrite H by (left; reflexivity).
  rewrite IH by (intros; apply H; right; assumption). reflexivity.
Qed.

Lemma text_lines_definition_items (id : nat * Definition_) :
  definition_one_line (snd id) = true ->
  text_lines (definition_items id) = definition_items id.
Proof.
  unfold definition_one_line, definition_items.
  rewrite andb_true_iff. intros [Hd Hex].
  rewrite text_lines_cons_one_line by now apply definition_item_one_line.
  destruct (nonempty (or_empty (example (snd id)))); [|reflexivity].
  rewrite text_lines_cons_one_line by now apply example_item_one_line.
  reflexivity.
Qed.

Lemma text_lines_definitions (ds : list Definition_) (start : nat) :
  forallb definition_one_line ds = true ->
  text_lines (flat_map definition_items (enumerate start ds))
  = flat_map definition_items (enumerate start ds).
Proof.
  intros H. apply text_lines_flat_map_id. intros [i d] Hin.
  apply text_lines_definition_items. cbn [snd].
  apply enumerate_In in Hin.
  rewrite forallb_forall in H. now apply H.
Qed.

Lemma count_definition_items (id : nat * Definition_) :
  count numbered_line (definition_items id) = 1
  /\ count word_line (definition_items id) = 0.
Proof.
  unfold definition_items. rewrite !count_cons.
  rewrite numbered_definition_item, word_line_definition_item.
  destruct (nonempty (or_empty (example (snd id)))); split; reflexivity.
Qed.

Lemma count_definitions (ds : list Definition_) (start : nat) :
  count numbered_line (flat_map definition_items (enumerate start ds))
  = length ds
  /\ count word_line (flat_map definition_items (enumerate start ds)) = 0.
Proof.
  revert start. induction ds as [|d ds IH]; intros start;
    [split; reflexivity|].
  cbn [enumerate flat_map]. rewrite !count_app.
  destruct (count_definition_items (start, d)) as [-> ->].
  destruct (IH (S start)) as [-> ->]. split; reflexivity.
Qed.

Lemma text_lines_meaning_items (m : Meaning) :
  meaning_one_line m = true ->
  text_lines (meaning_items m)
  = [] :: (u8 "Part of speech: " ++ or_empty (partOfSpeech m))
       :: flat_map definition_items (enumerate 1 (all_definitions m)).
Proof.
  unfold meaning_one_line, meaning_items. rewrite andb_true_iff.
  intros [Hp Hds].
  change (text_lines (?x :: ?l)) with (lines x ++ text_lines l).
  rewrite lines_part_of_speech by exact Hp.
  now rewrite text_lines_definitions.
Qed.

Lemma count_meaning_items (m : Meaning) :
  meaning_one_line m = true ->
  count numbered_line (text_lines (meaning_items m))
  = length (all_definitions m)
  /\ count word_line (text_lines (meaning_items m)) = 0.
Proof.
  intros H. rewrite text_lines_meaning_items by exact H.
  rewrite !count_cons.
  destruct (count_definitions (all_definitions m) 1) as [-> ->].
  split; reflexivity.
Qed.

Lemma phonetic_strings_one_line (e : Entry) :
  forallb (fun p => one_line (or_empty (text p))) (all_phonetics e) = true ->
  forallb one_line (phonetic_strings e) = true.
Proof.
  unfold phonetic_strings, all_phonetics. destruct (phonetics e) as [ps|];
    [|reflexivity].
  intros H. rewrite forallb_forall in *. intros s Hs.
  apply filter_In in Hs. destruct Hs as [Hs _].
  apply in_map_iff in Hs. destruct Hs as (p & <- & Hp). now apply H.
Qed.

Lemma count_entry_items (M K : nat) (e : Entry) :
  has_shape M K e = true -> entry_one_line e = true ->
  count word_line (text_lines (entry_items e)) = 1
  /\ count numbered_line (text_lines (entry_items e)) = M * K.
Proof.
  unfold has_shape, entry_one_line. rewrite !andb_true_iff.
  intros [[Hw HM] HK] [[Hwl Hpl] Hml].
  apply Nat.eqb_eq in HM. unfold entry_items.
  destruct (word e) as [w|]; [|discriminate]. cbn [or_empty] in Hwl.
  assert (Hpron :
            forall p,
              count p
                (text_lines
                   match phonetic_strings e with
                   | [] => []
                   | ph => [u8 "Pronunciation: " ++ join (u8 ", ") ph]
                   end)
              = match phonetic_strings e with
                | [] => 0
                | ph =>
                    if p (u8 "Pronunciation: " ++ join (u8 ", ") ph)
                    then 1 else 0
                end).
  { intros p. pose proof (phonetic_strings_one_line e Hpl) as Hph.
    destruct (phonetic_strings e) as [|s ss]; [reflexivity|].
    rewrite text_lines_cons_one_line.
    - rewrite count_cons. cbn. lia.
    - rewrite one_line_app. apply one_line_join; [reflexivity | exact Hph]. }
  rewrite !count_text_lines_app, !Hpron.
  rewrite !text_lines_cons_one_line
    by (rewrite one_line_app; exact Hwl).
  rewrite !count_cons. cbn [text_lines flat_map count filter length].
  rewrite (@count_text_lines_flat_map _ word_line meaning_items 0),
          (@count_text_lines_flat_map _ numbered_line meaning_items K).
  - rewrite HM.
    replace (word_line (u8 "Word: " ++ w)) with true by reflexivity.
    replace (numbered_line (u8 "Word: " ++ w)) with false by reflexivity.
    destruct (phonetic_strings e) as [|s ss].
    + split; lia.
    + replace (word_line (u8 "Pronunciation: " ++ join (u8 ", ") (s :: ss)))
        with false by reflexivity.
      replace (numbered_line
                 (u8 "Pronunciation: " ++ join (u8 ", ") (s :: ss)))
        with false by reflexivity.
      split; lia.
  - intros m Hm. rewrite forallb_forall in HK, Hml.
    destruct (count_meaning_items m (Hml m Hm)) as [-> _].
    apply Nat.eqb_eq. now apply HK.
  - intros m Hm. rewrite forallb_forall in Hml.
    now destruct (count_meaning_items m (Hml m Hm)) as [_ ->].
Qed.

Lemma shaped_report_nonempty (M K : nat) (es : list Entry) :
  es <> [] -> forallb (has_shape M K) es = true -> report_items es <> [].
Proof.
  destruct es as [|e es]; [congruence|]. intros _.
  cbn [forallb]. rewrite andb_true_iff. intros [He _].
  unfold has_shape in He. rewrite !andb_true_iff in He.
  destruct He as [[Hw _] _].
  unfold report_items. cbn [flat_map]. unfold entry_items.
  destruct (word e); [discriminate | discriminate].
Qed.

(** C3, as the code has it. For every response with at least one entry in
    which every entry has a [word] field, [M] meanings and [K] definitions
    in each meaning, and in which no string holds a line break, the
    formatter returns a report whose lines include exactly one line that
    begins [Word: ] per entry and exactly [N*M*K] numbered definition
    lines for [N] entries; the definition at position [i] of its meaning
    (counted from 0) is the line [  <i+1>. <definition>]; and when it has
    a non-empty example, the next line is [     e.g., <example>]. *)
Theorem report_line_counts (rt : runtime) (es : list Entry) (M K : nat) :
  es <> [] ->
  forallb (has_shape M K) es = true ->
  forallb entry_one_line es = true ->
  exists report,
    format_response rt
      {| status_code := 200; json_body := Ok (response_json es) |}
    = Ok (Some report)
    /\ count word_line (lines report) = length es
    /\ count numbered_line (lines report) = length es * M * K
    /\ (forall e m i d,
          In e es -> In m (all_meanings e) ->
          nth_error (all_definitions m) i = Some d ->
          In (u8 "  " ++ dec (Z.of_nat (S i)) ++ u8 ". "
                ++ or_empty (definition d))
             (lines report))
    /\ (forall e m i d ex,
          In e es -> In m (all_meanings e) ->
          nth_error (all_definitions m) i = Some d ->
          example d = Some ex -> ex <> [] ->
          exists pre post,
            lines report
            = pre
                ++ (u8 "  " ++ dec (Z.of_nat (S i)) ++ u8 ". "
                      ++ or_empty (definition d))
                :: (u8 "     e.g., " ++ ex)
                :: post).
Proof.
  intros Hne Hshape Hplain.
  pose proof (@shaped_report_nonempty M K es Hne Hshape) as Hitems.
  pose proof (format_response_items rt es) as Hf.
  exists (join nl (report_items es)).
  split; [destruct (report_items es); [congruence | exact Hf]|].
  rewrite lines_join by exact Hitems. fold (text_lines (report_items es)).
  assert (Hd : forall e m i d,
             In e es -> In m (all_meanings e) ->
             nth_error (all_definitions m) i = Some d ->
             exists pre post,
               text_lines (report_items es)
               = pre ++ definition_items (S i, d) ++ post).
  { intros e m i d He Hm Hnth.
    destruct (@definition_in_report es e m i d He Hm Hnth) as (p & q & ->).
    rewrite !text_lines_app. exists (text_lines p), (text_lines q).
    rewrite text_lines_definition_items; [reflexivity|]. cbn [snd].
    rewrite forallb_forall in Hplain. specialize (Hplain e He).
    unfold entry_one_line in Hplain. rewrite !andb_true_iff in Hplain.
    destruct Hplain as [_ Hml]. rewrite forallb_forall in Hml.
    specialize (Hml m Hm). unfold meaning_one_line in Hml.
    rewrite andb_true_iff in Hml. destruct Hml as [_ Hdl].
    rewrite forallb_forall in Hdl. apply Hdl.
    eapply nth_error_In; eassumption. }
  assert (Hcount : forall e, In e es ->
             count word_line (text_lines (entry_items e)) = 1
             /\ count numbered_line (text_lines (entry_items e)) = M * K).
  { intros e He. rewrite forallb_forall in Hshape, Hplain.
    apply count_entry_items; auto. }
  unfold report_items in *. repeat split.
  - rewrite (@count_text_lines_flat_map _ word_line entry_items 1); [lia|].
    intros e He. now destruct (Hcount e He).
  - rewrite (@count_text_lines_flat_map _ numbered_line entry_items (M * K));
      [lia|].
    intros e He. now destruct (Hcount e He).
  - intros e m i d He Hm Hnth.
    destruct (Hd e m i d He Hm Hnth) as (pre & post & ->).
    apply in_or_app. right. left. reflexivity.
  - intros e m i d ex He Hm Hnth Hex Hexne.
    destruct (Hd e m i d He Hm Hnth) as (pre & post & ->).
    exists pre, post. unfold definition_items. cbn [fst snd].
    rewrite Hex. cbn [or_empty].
    destruct ex as [|c ex]; [congruence|]. reflexivity.
Qed.

Lemma report_line_counts_witness :
  response_json run_entries = JList [run_entry]
  /\ exists report,
       format_response example_runtime run_response = Ok (Some report)
       /\ count word_line (lines report) = 1
       /\ count numbered_line (lines report) = 1 * 1 * 1
       /\ exists pre post,
            lines report
            = pre ++ u8 "  1. move fast" :: u8 "     e.g., She ran." :: post.
Proof.
  split; [reflexivity|].
  destruct (@report_line_counts example_runtime run_entries 1 1)
    as (report & H1 & H2 & H3 & _ & H5);
    [discriminate | reflexivity | reflexivity |].
  exists report. repeat split; try assumption.
  apply (H5 _ _ 0 _ (u8 "She ran.") (or_introl eq_refl)
           (or_introl eq_refl) eq_refl eq_refl).
  discriminate.
Defined.

(** C3 as the specification words it fails when a string of the response
    holds a line break: the response [two_line_definition] has one entry,
    one meaning and one definition, and its report has two lines that
    begin [Word: ] and two numbered definition lines.  (A response without
    entries has no report at all.) *)
Lemma report_line_counts_line_break :
  forallb (has_shape 1 1) two_line_definition = true
  /\ length two_line_definition = 1
  /\ (exists report,
        format_response example_runtime
          {| status_code := 200;
             json_body := Ok (response_json two_line_definition) |}
        = Ok (Some report)
        /\ count word_line (lines report) = 2
        /\ count numbered_line (lines report) = 2)
  /\ format_response example_runtime
       {| status_code := 200; json_body := Ok (response_json []) |}
     = Ok None.
Proof.
  split; [reflexivity|]. split; [reflexivity|]. split; [|reflexivity].
  eexists. split; [vm_compute; reflexivity|]. split; reflexivity.
Qed.

(* ================================================================== *)
(** * Further properties of the code *)

(** ** The handler of a lookup result *)

Lemma split1_marked (msg : str) :
  split1 58%N (ERROR_MARK ++ msg) = [u8 "__ERROR__"; msg].
Proof. reflexivity. Qed.

Lemma handle_marked (st : app_state) (selection msg : str) :
  _handle_lookup_result st selection (Some (ERROR_MARK ++ msg))
  = Ok (add_notice st
          (critical (u8 "Lookup Error")
             (u8 "Error while looking up " ++ dq ++ selection ++ dq
                ++ u8 ":" ++ nl ++ msg))).
Proof.
  unfold _handle_lookup_result. rewrite startswith_app, split1_marked.
  reflexivity.
Qed.

(** X1. [_handle_lookup_result] never raises, the index [[1]] of the [split]
    included, and every result has exactly one visible effect: one message
    box and no window, or one new window, appended to [open_windows] under
    a fresh identity, and no message box. *)
Theorem handler_one_effect (st : app_state) (selection : str)
    (res : option str) :
  exists st',
    _handle_lookup_result st selection res = Ok st'
    /\ ((exists n,
           notices st' = notices st ++ [n]
           /\ open_windows st' = open_windows st
           /\ visible st' = visible st
           /\ next_wid st' = next_wid st)
        \/ (exists w,
              notices st' = notices st
              /\ open_windows st' = open_windows st ++ [w]
              /\ visible st' = visible st ++ [w]
              /\ wid w = next_wid st
              /\ next_wid st' = S (next_wid st))).
Proof.
  destruct res as [s|].
  - destruct (startswith ERROR_MARK s) eqn:E.
    + apply startswith_spec in E. destruct E as [msg ->].
      eexists. split; [apply handle_marked|].
      left. eexists. repeat split.
    + eexists. split; [now apply handle_text|].
      right. eexists. repeat split.
  - eexists. split; [apply handle_none|]. left. eexists. repeat split.
Qed.

(** X2. When [lookup_word_api] raises, the worker [bg_lookup] passes the text
    of the exception behind the error mark, and the handler shows it,
    whole, in one critical message box that names the selection; no
    window is opened. *)
Theorem raised_lookup_critical_notice (rt : runtime) (net : network)
    (st : app_state) (selection : str) (e : exn) :
  lookup_word_api rt net selection = Raise e ->
  _handle_lookup_result st (fst (bg_lookup rt net selection))
    (snd (bg_lookup rt net selection))
  = Ok {| open_windows := open_windows st;
          live := live st;
          visible := visible st;
          notices :=
            notices st
              ++ [critical (u8 "Lookup Error")
                    (u8 "Error while looking up " ++ dq ++ selection ++ dq
                       ++ u8 ":" ++ nl ++ str_of_exn rt e)];
          next_wid := next_wid st |}.
Proof.
  intros H. unfold bg_lookup. rewrite H. cbn [fst snd].
  apply handle_marked.
Qed.

Lemma raised_lookup_critical_notice_witness :
  _handle_lookup_result init_state
    (fst (bg_lookup example_runtime timing_out [0xDC00%N]))
    (snd (bg_lookup example_runtime timing_out [0xDC00%N]))
  = Ok {| open_windows := [];
          live := [];
          visible := [];
          notices :=
            [critical (u8 "Lookup Error")
               (u8 "Error while looking up " ++ dq ++ [0xDC00%N] ++ dq
                  ++ u8 ":" ++ nl ++ u8 "UnicodeEncodeError")];
          next_wid := 0 |}.
Proof.
  exact (@raised_lookup_critical_notice example_runtime timing_out
           init_state [0xDC00%N] (UnicodeEncodeError 0xDC00) eq_refl).
Defined.

(** ** When the lookup raises *)

Lemma utf8_encode_cp_raises (c : N) (e : exn) :
  utf8_encode_cp c = Raise e -> e = UnicodeEncodeError c.
Proof.
  unfold utf8_encode_cp.
  repeat match goal with
         | |- context [if ?b then _ else _] => destruct b
         end; intros H; try discriminate; now injection H as <-.
Qed.

Lemma utf8_encode_raises (s : str) (e : exn) :
  utf8_encode s = Raise e ->
  exists c, e = UnicodeEncodeError c /\ In c s.
Proof.
  induction s as [|c s IH]; cbn [utf8_encode]; [discriminate|].
  destruct (utf8_encode_cp c) as [b|e'] eqn:Ec; cbn [bind].
  - destruct (utf8_encode s) as [bs|e'] eqn:Es; cbn [bind];
      [discriminate|].
    intros H; injection H as <-. destruct (IH eq_refl) as (c' & -> & Hin).
    exists c'. split; [reflexivity | now right].
  - intros H; injection H as <-. exists c.
    split; [now apply utf8_encode_cp_raises | now left].
Qed.

Lemma quote_not_encodable (s : str) :
  encodable s = false -> exists e, quote s = Raise e.
Proof.
  unfold quote. intros H.
  assert (exists e, utf8_encode s = Raise e) as [e ->]; [|cbn; eauto].
  induction s as [|c s IH]; [discriminate|].
  cbn [encodable forallb] in H. cbn [utf8_encode].
  destruct (utf8_encode_cp c) as [b|e] eqn:Ec; cbn [bind]; [|eauto].
  apply andb_false_iff in H. destruct H as [H|H].
  - exfalso. unfold utf8_encode_cp in Ec.
    apply andb_false_iff in H. destruct H as [H|H].
    + rewrite H in Ec.
      apply N.ltb_ge in H.
      destruct (c <? 0x80)%N eqn:E1; [apply N.ltb_lt in E1; lia|].
      destruct (c <? 0x800)%N eqn:E2; [apply N.ltb_lt in E2; lia|].
      destruct ((0xD800 <=? c) && (c <=? 0xDFFF))%N; [discriminate|].
      destruct (c <? 0x10000)%N eqn:E3; [apply N.ltb_lt in E3; lia|].
      discriminate.
    + apply negb_false_iff in H. rewrite H in Ec.
      apply andb_true_iff in H. destruct H as [H1 H2].
      apply N.leb_le in H1.
      destruct (c <? 0x80)%N eqn:E1; [apply N.ltb_lt in E1; lia|].
      destruct (c <? 0x800)%N eqn:E2; [apply N.ltb_lt in E2; lia|].
      discriminate.
  - destruct (IH H) as [e ->]. cbn. eauto.
Qed.

(** X3. [lookup_word_api] raises exactly on the texts that hold a code point
    UTF-8 cannot encode, whatever the network answers; the exception is
    the [UnicodeEncodeError] of [quote] for a code point of the text. *)
Theorem lookup_raises_iff (rt : runtime) (net : network) (t : str) :
  ((exists e, lookup_word_api rt net t = Raise e) <-> encodable t = false)
  /\ (forall e,
        lookup_word_api rt net t = Raise e ->
        exists c, e = UnicodeEncodeError c /\ In c t).
Proof.
  assert (Hq : forall e, lookup_word_api rt net t = Raise e ->
                         quote t = Raise e).
  { intros e. unfold lookup_word_api.
    destruct (quote t) as [q|e']; cbn [bind];
      [|intros H; now injection H as ->].
    destruct (net (DICTIONARY_API ++ q)) as [r|e']; [|discriminate].
    destruct (status_code r =? 200)%Z.
    - destruct (format_response rt r); discriminate.
    - destruct (status_code r =? 404)%Z; discriminate. }
  split; [split|].
  - intros [e He]. apply Hq in He.
    destruct (encodable t) eqn:E; [|reflexivity].
    destruct (encodable_quote _ E) as [q Hok]. congruence.
  - intros E. destruct (quote_not_encodable _ E) as [e He].
    exists e. unfold lookup_word_api. now rewrite He.
  - intros e He. apply Hq in He. unfold quote in He.
    destruct (utf8_encode t) as [bs|e'] eqn:Eu; [discriminate|].
    cbn in He. injection He as <-. now apply utf8_encode_raises.
Qed.

(** ** The list [open_windows], continued *)

Lemma without_absent (w : ResultWindow) (l : list ResultWindow) :
  list_in w l = false -> without w l = l.
Proof.
  unfold list_in, without. induction l as [|x l IH]; [reflexivity|].
  cbn [existsb filter]. rewrite orb_false_iff. intros [Hx Hl].
  rewrite Hx. cbn [negb]. now rewrite IH.
Qed.

Lemma set_open_windows_same (st : app_state) :
  set_open_windows st (open_windows st) = st.
Proof. destruct st; reflexivity. Qed.

(** X4. In every state of the application [_remove_window_ref] is the filter
    that drops the object [w]: every other entry of [open_windows] stays,
    in its order, and nothing but [open_windows] is touched. *)
Theorem remove_is_filter (st : app_state) (w : ResultWindow) :
  reachable st ->
  _remove_window_ref st w
  = Ok {| open_windows := without w (open_windows st);
          live := live st;
          visible := visible st;
          notices := notices st;
          next_wid := next_wid st |}.
Proof.
  intros Hreach. destruct (reachable_registry_ok Hreach) as (Hd & _).
  fold (set_open_windows st (without w (open_windows st))).
  destruct (remove_window_ref_cases st w)
    as [[Hout ->]|(a & x & b & Ho & Hx & Ha & ->)].
  - now rewrite without_absent, set_open_windows_same.
  - f_equal. f_equal. rewrite Ho in Hd |- *.
    destruct (distinct_removed _ _ _ _ Hd Hx) as [_ Hgone].
    unfold without. rewrite filter_app. cbn [filter]. rewrite Hx.
    cbn [negb]. rewrite <- filter_app. symmetry.
    now apply without_absent.
Qed.

Lemma remove_is_filter_witness :
  _remove_window_ref one_window
    {| wid := 0; win_title := []; win_text := [] |}
  = Ok {| open_windows := []; live := live one_window;
          visible := visible one_window; notices := [];
          next_wid := 1 |}.
Proof.
  exact (@remove_is_filter one_window
           {| wid := 0; win_title := []; win_text := [] |}
           reachable_one_window).
Defined.

Lemma created_by_handler_step (st st' : app_state) (ev : event) :
  (forall w, In w (open_windows st) ->
     startswith (u8 "Meaning: ") (win_title w) = true
     /\ startswith ERROR_MARK (win_text w) = false) ->
  step st ev st' ->
  forall w, In w (open_windows st') ->
    startswith (u8 "Meaning: ") (win_title w) = true
    /\ startswith ERROR_MARK (win_text w) = false.
Proof.
  intros Hst Hstep.
  destruct Hstep as [st selection res st' Hh | st x Hx | st x st1 Hx Hr].
  - destruct (handle_cases _ _ _ Hh) as [(-> & _)|(text & _ & Hm & ->)];
      [exact Hst|].
    cbn [open_windows]. intros w Hw. apply in_app_or in Hw.
    destruct Hw as [Hw|[<-|[]]]; [now apply Hst|].
    cbn [win_title win_text]. split; [reflexivity | exact Hm].
  - exact Hst.
  - cbn [open_windows]. intros w Hw. apply Hst.
    destruct (remove_fields _ _ Hr) as (_ & _ & _ & _ & Hsub & _). auto.
Qed.

(** X5. In every state of the application the windows of [open_windows] are
    pairwise distinct objects with identities below the next one to be
    handed out, and each was made by the handler: its title begins
    [Meaning: ] and its text does not begin with the error mark. *)
Theorem open_windows_made_by_handler (st : app_state) :
  reachable st ->
  NoDup (map wid (open_windows st))
  /\ forall w, In w (open_windows st) ->
       wid w < next_wid st
       /\ startswith (u8 "Meaning: ") (win_title w) = true
       /\ startswith ERROR_MARK (win_text w) = false.
Proof.
  intros Hreach. destruct (reachable_registry_ok Hreach) as (Hd & Hb & _).
  split; [exact Hd|]. intros w Hw. split; [now apply Hb|].
  revert w Hw. induction Hreach as [|st ev st' Hreach IH Hstep].
  - intros w [].
  - apply (created_by_handler_step
             (IH (proj1 (reachable_registry_ok Hreach))
                 (proj1 (proj2 (reachable_registry_ok Hreach)))) Hstep).
Qed.

Lemma open_windows_made_by_handler_witness :
  NoDup (map wid (open_windows one_window))
  /\ forall w, In w (open_windows one_window) ->
       wid w < next_wid one_window
       /\ startswith (u8 "Meaning: ") (win_title w) = true
       /\ startswith ERROR_MARK (win_text w) = false.
Proof.
  exact (@open_windows_made_by_handler one_window reachable_one_window).
Defined.

(* ================================================================== *)
(** ** Selection capture, continued *)

(** X6. The worker never raises, and what it hands to the UI thread depends
    on the clipboard read alone: the outcome of the simulated copy
    keystroke, failed or not, changes nothing. *)
Theorem worker_reads_clipboard_only (env env' : capture_env) :
  paste env = paste env' ->
  _on_hotkey_press_worker env = _on_hotkey_press_worker env'
  /\ exists h, _on_hotkey_press_worker env = Ok h.
Proof.
  intros H. rewrite !worker_unfold, H. split; [reflexivity | eauto].
Qed.

Lemma worker_reads_clipboard_only_witness :
  _on_hotkey_press_worker
    {| copy_hotkey := Raise (LibraryError 4);
       copy_keys := Raise (LibraryError 5); paste := Ok (u8 "run") |}
  = _on_hotkey_press_worker
      {| copy_hotkey := Ok tt; copy_keys := Ok tt; paste := Ok (u8 "run") |}
  /\ exists h,
       _on_hotkey_press_worker
         {| copy_hotkey := Raise (LibraryError 4);
            copy_keys := Raise (LibraryError 5); paste := Ok (u8 "run") |}
       = Ok h.
Proof.
  exact (@worker_reads_clipboard_only
           {| copy_hotkey := Raise (LibraryError 4);
              copy_keys := Raise (LibraryError 5); paste := Ok (u8 "run") |}
           {| copy_hotkey := Ok tt; copy_keys := Ok tt;
              paste := Ok (u8 "run") |} eq_refl).
Defined.

Lemma lstrip_head (s r : str) (c : N) :
  lstrip s = c :: r -> isspace c = false.
Proof.
  induction s as [|x s IH]; cbn [lstrip]; [discriminate|].
  destruct (isspace x) eqn:E; [exact IH|].
  intros H; injection H as <- _. exact E.
Qed.

Lemma lstrip_idem (s : str) : lstrip (lstrip s) = lstrip s.
Proof.
  induction s as [|x s IH]; [reflexivity|]. cbn [lstrip].
  destruct (isspace x) eqn:E; [exact IH|]. cbn [lstrip]. now rewrite E.
Qed.

Lemma lstrip_snoc (l : str) (c : N) :
  isspace c = false -> lstrip (l ++ [c]) = lstrip l ++ [c].
Proof.
  intros Hc. induction l as [|x l IH]; cbn [lstrip app].
  - now rewrite Hc.
  - destruct (isspace x); [exact IH | reflexivity].
Qed.

Lemma rstrip_cons (c : N) (t : str) :
  isspace c = false -> rstrip (c :: t) = c :: rstrip t.
Proof.
  intros Hc. unfold rstrip. cbn [rev].
  rewrite lstrip_snoc by exact Hc. rewrite rev_app_distr. reflexivity.
Qed.

Lemma rstrip_idem (s : str) : rstrip (rstrip s) = rstrip s.
Proof. unfold rstrip. now rewrite rev_involutive, lstrip_idem. Qed.

Lemma rstrip_last (s front : str) (c : N) :
  rstrip s = front ++ [c] -> isspace c = false.
Proof.
  unfold rstrip. intros H. apply (f_equal (@rev N)) in H.
  rewrite rev_involutive, rev_app_distr in H. cbn [rev app] in H.
  eapply lstrip_head; exact H.
Qed.

Lemma strip_idem (s : str) : strip (strip s) = strip s.
Proof.
  unfold strip. destruct (lstrip s) as [|c t] eqn:E; [reflexivity|].
  pose proof (lstrip_head _ E) as Hc.
  rewrite (@rstrip_cons c t Hc). cbn [lstrip]. rewrite Hc.
  rewrite <- (@rstrip_cons c t Hc). apply rstrip_idem.
Qed.

(** X7. The selection the worker emits is trimmed: stripping it again
    changes nothing, and neither its first nor its last code point is
    white space. *)
Theorem emitted_selection_trimmed (env : capture_env) (selection : str) :
  _on_hotkey_press_worker env = Ok (RequestLookup selection) ->
  strip selection = selection
  /\ (exists c rest, selection = c :: rest /\ isspace c = false)
  /\ (exists front c, selection = front ++ [c] /\ isspace c = false).
Proof.
  rewrite worker_unfold. intros H.
  assert (exists s, selection = strip s /\ selection <> [])
    as (s & -> & Hne).
  { destruct (try_except (paste env) (fun _ => Ok [])) as [[|c s]|e];
      try discriminate.
    destruct (strip (c :: s)) as [|c' s'] eqn:E; [discriminate|].
    injection H as <-. exists (c :: s). split; [now symmetry | discriminate]. }
  split; [apply strip_idem|]. split.
  - unfold strip in *. destruct (lstrip s) as [|c t] eqn:E;
      [now destruct Hne|].
    pose proof (lstrip_head _ E) as Hc. rewrite (@rstrip_cons c t Hc).
    eauto.
  - destruct (exists_last Hne) as (front & c & E). exists front, c.
    split; [exact E|]. unfold strip in E. eapply rstrip_last; exact E.
Qed.

Lemma emitted_selection_trimmed_witness :
  strip (u8 "to run") = u8 "to run"
  /\ (exists c rest, u8 "to run" = c :: rest /\ isspace c = false)
  /\ (exists front c, u8 "to run" = front ++ [c] /\ isspace c = false).
Proof.
  exact (@emitted_selection_trimmed
           {| copy_hotkey := Ok tt; copy_keys := Ok tt;
              paste := Ok (u8 "  to run ") |} (u8 "to run") eq_refl).
Defined.

(* ================================================================== *)
(** ** The formatter on bodies of any form *)

Section Bodies.

Variable rt : runtime.

Lemma report_head_app (h post : str) :
  report_head h = true -> report_head (h ++ post) = true.
Proof.
  unfold report_head. rewrite !orb_true_iff, !startswith_spec.
  intros [[[r ->]|[r ->]]|[r ->]]; rewrite <- app_assoc.
  - left; left. eauto.
  - left; right. eauto.
  - right. eauto.
Qed.

(** X8. Every string [lookup_word_api] returns begins with one of six fixed
    texts: a report begins [Word: ], [Pronunciation: ] or with the empty
    line before [Part of speech: ], whatever the body held, and anything
    else is one of the three error texts. *)
Theorem returned_text_heads (net : network) (t v : str) :
  lookup_word_api rt net t = Ok (Some v) ->
  (report_head v = true /\ is_error_message v = false)
  \/ (report_head v = false /\ is_error_message v = true).
Proof.
  unfold lookup_word_api. intros H. bind_inv H.
  destruct (net (DICTIONARY_API ++ a)) as [r|e].
  - destruct (status_code r =? 200)%Z.
    + destruct (format_response rt r) as [[report|]|e] eqn:Ef;
        cbn [try_except] in H; try discriminate; injection H as <-.
      * left. split; [|now apply (report_not_error rt r)].
        unfold format_response in Ef. bind_inv Ef. bind_inv Ef.
        destruct (collect_lines_grows rt _ E1)
          as [->|(h & suffix & -> & Hh)]; [discriminate|].
        cbn [app] in Ef. injection Ef as <-.
        destruct suffix as [|x suffix]; [exact Hh|].
        now apply report_head_app.
      * right. split; reflexivity.
    + destruct (status_code r =? 404)%Z; [discriminate|].
      injection H as <-. right. split; reflexivity.
  - injection H as <-. right. split; reflexivity.
Qed.

Lemma lookup_ok_body (selection : str) (body : json) :
  encodable selection = true ->
  lookup_word_api rt (always (ok_body body)) selection
  = try_except (format_response rt (ok_body body))
      (fun e => Ok (Some (parse_error ++ str_of_exn rt e))).
Proof.
  intros H. destruct (encodable_quote _ H) as [q Hq].
  unfold lookup_word_api. rewrite Hq. cbn [bind].
  change (always (ok_body body) (DICTIONARY_API ++ q))
    with (Ok (ok_body body)).
  cbv beta iota zeta.
  change (status_code (ok_body body) =? 200)%Z with true.
  cbv iota. unfold parse_error. reflexivity.
Qed.

Lemma for_each_skips {A} (body : A -> list str -> result (list str))
    (xs : list A) (out : list str) :
  (forall x, In x xs -> body x out = Ok out) ->
  for_each xs body out = Ok out.
Proof.
  induction xs as [|x xs IH]; intros H; [reflexivity|].
  cbn [for_each]. rewrite H by (left; reflexivity). cbn [bind].
  apply IH. intros y Hy. apply H. now right.
Qed.

Lemma for_each_raises {A} (body : A -> list str -> result (list str))
    (x : A) (xs : list A) :
  In x xs ->
  (forall out, exists e, body x out = Raise e) ->
  forall out, exists e, for_each xs body out = Raise e.
Proof.
  intros Hin Hx. induction xs as [|y xs IH]; [destruct Hin|].
  intros out. cbn [for_each].
  destruct Hin as [->|Hin].
  - destruct (Hx out) as [e ->]. cbn. eauto.
  - destruct (body y out) as [out'|e]; cbn [bind]; [now apply IH | eauto].
Qed.

Lemma entry_lines_scalar (entry : json) (out : list str) :
  is_scalar entry = true ->
  entry_lines rt entry out = Raise (TypeError entry).
Proof. destruct entry; try discriminate; reflexivity. Qed.

Lemma entry_lines_key (k : str) (out : list str) :
  entry_lines rt (JStr k) out
  = if names_field k then Raise (key_error k) else Ok out.
Proof.
  unfold entry_lines, names_field, key_error. cbn [py_in bind].
  destruct (str_contains (u8 "word") k); [reflexivity|].
  cbn [bind orb].
  destruct (str_contains (u8 "phonetics") k); [reflexivity|].
  cbn [bind orb].
  destruct (str_contains (u8 "meanings") k); reflexivity.
Qed.

Lemma one_char_names_no_field (c : N) : names_field [c] = false.
Proof.
  unfold names_field. cbn. now rewrite !andb_false_r.
Qed.

(** X9. A 200 response whose body is not a container ([null], a number, a
    boolean) ends in the parse-error text of the [TypeError] that the loop
    over it raises; a body that is a JSON string is looped over character
    by character, renders nothing and ends in [None], as "not found". *)
Theorem body_without_entries (selection : str) (body : json) :
  encodable selection = true ->
  (is_scalar body = true ->
   lookup_word_api rt (always (ok_body body)) selection
   = Ok (Some (parse_error ++ str_of_exn rt (TypeError body))))
  /\ (forall s, body = JStr s ->
        lookup_word_api rt (always (ok_body body)) selection = Ok None).
Proof.
  intros Henc. rewrite (@lookup_ok_body selection body Henc). split.
  - intros Hs. unfold format_response, collect_lines. cbn [ok_body json_body bind].
    destruct body; try discriminate; reflexivity.
  - intros s ->. unfold format_response, collect_lines.
    cbn [ok_body json_body bind py_iter].
    rewrite for_each_skips; [reflexivity|].
    intros x Hx. apply in_map_iff in Hx. destruct Hx as (c & <- & _).
    now rewrite entry_lines_key, one_char_names_no_field.
Qed.

Lemma keys_loop (d : list (str * json)) (out : list str) :
  for_each (map (fun kv => JStr (fst kv)) d) (entry_lines rt) out
  = match find (fun kv => names_field (fst kv)) d with
    | Some kv => Raise (key_error (fst kv))
    | None => Ok out
    end.
Proof.
  induction d as [|[k v] d IH]; [reflexivity|].
  cbn [map for_each find fst]. rewrite entry_lines_key.
  destruct (names_field k); [reflexivity|]. cbn [bind]. exact IH.
Qed.

(** X10. A 200 response whose body is a JSON object is looped over key by key:
    when no key contains [word], [phonetics] or [meanings] the lookup
    returns [None]; otherwise it returns the parse-error text of the
    exception raised at the first such key, an [AttributeError] when the
    key contains [word] and a [TypeError] when it does not. *)
Theorem object_body (selection : str) (d : list (str * json)) :
  encodable selection = true ->
  lookup_word_api rt (always (ok_body (JDict d))) selection
  = Ok match find (fun kv => names_field (fst kv)) d with
       | Some kv =>
           Some (parse_error ++ str_of_exn rt (key_error (fst kv)))
       | None => None
       end.
Proof.
  intros Henc. rewrite (@lookup_ok_body selection (JDict d) Henc).
  unfold format_response, collect_lines.
  cbn [ok_body json_body bind py_iter]. rewrite keys_loop.
  destruct (find (fun kv => names_field (fst kv)) d); reflexivity.
Qed.

(** X11. One entry that is [null], a number or a boolean discards the whole
    report: wherever it stands in the list and whatever the other entries
    hold, the lookup returns a parse-error text. *)
Theorem scalar_entry_discards_report (selection : str)
    (entries : list json) (entry : json) :
  encodable selection = true ->
  In entry entries ->
  is_scalar entry = true ->
  exists e,
    lookup_word_api rt (always (ok_body (JList entries))) selection
    = Ok (Some (parse_error ++ str_of_exn rt e)).
Proof.
  intros Henc Hin Hs. rewrite (@lookup_ok_body selection (JList entries) Henc).
  unfold format_response, collect_lines.
  cbn [ok_body json_body bind py_iter].
  destruct (for_each_raises (entry_lines rt) entry entries Hin) with (out := @nil str)
    as [e ->].
  - intros out. exists (TypeError entry). now apply entry_lines_scalar.
  - exists e. reflexivity.
Qed.

End Bodies.

Lemma returned_text_heads_witness :
  (report_head (u8 "Unexpected API response: 500") = true
   /\ is_error_message (u8 "Unexpected API response: 500") = false)
  \/ (report_head (u8 "Unexpected API response: 500") = false
      /\ is_error_message (u8 "Unexpected API response: 500") = true).
Proof.
  exact (@returned_text_heads example_runtime (always server_error)
           (u8 "run") (u8 "Unexpected API response: 500") eq_refl).
Defined.

Lemma body_without_entries_witness :
  lookup_word_api example_runtime (always (ok_body (JInt 7))) (u8 "run")
  = Ok (Some (parse_error ++ u8 "TypeError"))
  /\ lookup_word_api example_runtime
       (always (ok_body (JStr (u8 "word")))) (u8 "run")
     = Ok None.
Proof.
  split.
  - exact (proj1 (@body_without_entries example_runtime (u8 "run")
                    (JInt 7) eq_refl) eq_refl).
  - exact (proj2 (@body_without_entries example_runtime (u8 "run")
                    (JStr (u8 "word")) eq_refl) (u8 "word") eq_refl).
Defined.

Lemma object_body_witness :
  lookup_word_api example_runtime
    (always (ok_body (JDict [(u8 "title", JStr (u8 "No Definitions Found"))])))
    (u8 "run")
  = Ok None
  /\ lookup_word_api example_runtime
       (always (ok_body (JDict [(u8 "word", JStr (u8 "run"))]))) (u8 "run")
     = Ok (Some (parse_error ++ u8 "AttributeError")).
Proof.
  split.
  - exact (@object_body example_runtime (u8 "run")
             [(u8 "title", JStr (u8 "No Definitions Found"))] eq_refl).
  - exact (@object_body example_runtime (u8 "run")
             [(u8 "word", JStr (u8 "run"))] eq_refl).
Defined.

Lemma scalar_entry_discards_report_witness :
  exists e,
    lookup_word_api example_runtime
      (always (ok_body (JList [run_entry; JNull]))) (u8 "run")
    = Ok (Some (parse_error ++ str_of_exn example_runtime e)).
Proof.
  exact (@scalar_entry_discards_report example_runtime (u8 "run")
           [run_entry; JNull] JNull eq_refl
           (or_intror (or_introl eq_refl)) eq_refl).
Defined.

(* ================================================================== *)
(** ** The fields the formatter reads *)

Section Fields.

Variable rt : runtime.

Lemma py_in_dict (k : str) (d : list (str * json)) :
  py_in k (JDict d)
  = Ok (match dict_lookup k d with Some _ => true | None => false end).
Proof.
  cbn [py_in]. f_equal. induction d as [|[k' v] d IH]; [reflexivity|].
  cbn [existsb dict_lookup fst]. destruct (str_eqb k k'); [reflexivity|].
  exact IH.
Qed.

Lemma py_get_dict (k : str) (d : list (str * json)) (default : json) :
  py_get (JDict d) k default
  = Ok (match dict_lookup k d with Some x => x | None => default end).
Proof. reflexivity. Qed.

Lemma py_getitem_dict (k : str) (d : list (str * json)) :
  py_getitem (JDict d) k
  = match dict_lookup k d with
    | Some x => Ok x
    | None => Raise (KeyError k)
    end.
Proof. reflexivity. Qed.

(** X12. The formatter reads an entry through its fields [word], [phonetics]
    and [meanings] only, a meaning through [partOfSpeech] and
    [definitions], a definition through [definition] and [example]: two
    objects that agree on these fields render alike, whatever other
    fields they hold and in whatever order. *)
Theorem only_named_fields_read (d d' : list (str * json)) (i : nat)
    (out : list str) :
  ((forall k, In k [u8 "word"; u8 "phonetics"; u8 "meanings"] ->
      dict_lookup k d = dict_lookup k d') ->
   entry_lines rt (JDict d) out = entry_lines rt (JDict d') out)
  /\ ((forall k, In k [u8 "partOfSpeech"; u8 "definitions"] ->
         dict_lookup k d = dict_lookup k d') ->
      meaning_lines rt (JDict d) out = meaning_lines rt (JDict d') out)
  /\ ((forall k, In k [u8 "definition"; u8 "example"] ->
         dict_lookup k d = dict_lookup k d') ->
      definition_lines rt (i, JDict d) out
      = definition_lines rt (i, JDict d') out).
Proof.
  split; [|split]; intros H.
  - unfold entry_lines.
    rewrite !py_in_dict, !py_get_dict, !py_getitem_dict.
    rewrite (H (u8 "word")), (H (u8 "phonetics")), (H (u8 "meanings"));
      [reflexivity | | |]; cbn [In]; auto.
  - unfold meaning_lines. rewrite !py_get_dict.
    rewrite (H (u8 "partOfSpeech")), (H (u8 "definitions"));
      [reflexivity | |]; cbn [In]; auto.
  - unfold definition_lines. rewrite !py_get_dict.
    rewrite (H (u8 "definition")), (H (u8 "example"));
      [reflexivity | |]; cbn [In]; auto.
Qed.

End Fields.

Lemma only_named_fields_read_witness :
  entry_lines example_runtime
    (JDict [(u8 "word", JStr (u8 "run")); (u8 "meanings", JList [])]) []
  = entry_lines example_runtime
      (JDict [(u8 "license", JDict []); (u8 "meanings", JList []);
              (u8 "sourceUrls", JList []); (u8 "word", JStr (u8 "run"))])
      [].
Proof.
  apply (proj1 (@only_named_fields_read example_runtime
                  [(u8 "word", JStr (u8 "run")); (u8 "meanings", JList [])]
                  [(u8 "license", JDict []); (u8 "meanings", JList []);
                   (u8 "sourceUrls", JList []); (u8 "word", JStr (u8 "run"))]
                  0 [])).
  intros k [<-|[<-|[<-|[]]]]; reflexivity.
Defined.

Lemma meanings_never_not_found_witness :
  format_response example_runtime
    (ok_body (JList [JInt 3; JDict [(u8 "meanings", JList [JNull])]]))
  <> Ok None
  /\ format_response example_runtime
       (ok_body (JList [JDict [(u8 "meanings", JList [JDict []])]]))
     = Ok (Some (nl ++ u8 "Part of speech: ")).
Proof.
  split; [|reflexivity].
  apply (@meanings_never_not_found example_runtime
           (ok_body (JList [JInt 3; JDict [(u8 "meanings", JList [JNull])]]))
           [JInt 3; JDict [(u8 "meanings", JList [JNull])]]
           [(u8 "meanings", JList [JNull])] JNull []);
    [reflexivity | right; left; reflexivity | reflexivity].
Defined.

(* ================================================================== *)
(** ** Reports of responses of the documented shape *)

Section Reports.

Variable rt : runtime.

Lemma lookup_entries_items (selection : str) (es : list Entry) :
  encodable selection = true ->
  lookup_entries rt selection es
  = Ok (match report_items es with
        | [] => None
        | items => Some (join nl items)
        end).
Proof.
  intros H. unfold lookup_entries.
  rewrite (@lookup_ok_body rt selection (response_json es) H).
  change (ok_body (response_json es))
    with {| status_code := 200; json_body := Ok (response_json es) |}.
  now rewrite format_response_items.
Qed.

Lemma entry_items_nil (e : Entry) :
  entry_items e = [] <-> renders_nothing e = true.
Proof.
  unfold entry_items, renders_nothing.
  destruct (word e) as [w|]; [split; discriminate|].
  destruct (phonetic_strings e) as [|s ss]; [|split; discriminate].
  destruct (all_meanings e) as [|m ms]; [split; reflexivity|].
  split; discriminate.
Qed.

Lemma report_items_nil (es : list Entry) :
  report_items es = [] <-> forallb renders_nothing es = true.
Proof.
  unfold report_items. induction es as [|e es IH]; [split; reflexivity|].
  cbn [flat_map forallb]. rewrite andb_true_iff, <- IH, <- entry_items_nil.
  split.
  - intros H. now apply app_eq_nil in H.
  - intros [-> ->]. reflexivity.
Qed.

(** X14. On a 200 response of the documented shape the lookup returns [None],
    as for a word that does not exist, exactly when no entry has a
    [word], a phonetic text that is not empty, or a meaning. *)
Theorem not_found_iff_nothing_to_render (selection : str)
    (es : list Entry) :
  encodable selection = true ->
  (lookup_entries rt selection es = Ok None
   <-> forallb renders_nothing es = true).
Proof.
  intros H. rewrite (@lookup_entries_items selection es H), <- report_items_nil.
  destruct (report_items es); split; congruence.
Qed.

Lemma join_app (sep : str) (a b : list str) :
  a <> [] -> b <> [] ->
  join sep (a ++ b) = join sep a ++ sep ++ join sep b.
Proof.
  intros Ha Hb. induction a as [|x a IH]; [congruence|].
  destruct a as [|y a].
  - destruct b; [congruence | reflexivity].
  - change (join sep ((x :: y :: a) ++ b))
      with (x ++ sep ++ join sep ((y :: a) ++ b)).
    rewrite IH by discriminate.
    change (join sep (x :: y :: a)) with (x ++ sep ++ join sep (y :: a)).
    now rewrite <- !app_assoc.
Qed.

(** X15. Entries are rendered one after the other and independently: the
    report of two lists of entries put together is the report of the
    first, a newline and the report of the second; a part without report
    adds nothing. *)
Theorem report_of_concatenation (selection : str) (es1 es2 : list Entry) :
  encodable selection = true ->
  lookup_entries rt selection (es1 ++ es2)
  = match lookup_entries rt selection es1,
          lookup_entries rt selection es2 with
    | Ok (Some r1), Ok (Some r2) => Ok (Some (r1 ++ nl ++ r2))
    | Ok None, other => other
    | other, _ => other
    end.
Proof.
  intros H. rewrite !(fun es => @lookup_entries_items selection es H).
  unfold report_items. rewrite flat_map_app.
  destruct (flat_map entry_items es1) as [|x a] eqn:E1.
  - reflexivity.
  - destruct (flat_map entry_items es2) as [|y b] eqn:E2.
    + now rewrite app_nil_r.
    + cbn [app]. cbv iota.
      change (x :: a ++ y :: b) with ((x :: a) ++ y :: b).
      rewrite join_app by discriminate. reflexivity.
Qed.

(** X16. In the report of a one-line response the [Pronunciation: ] line of an
    entry stands directly under its [Word: ] line and joins the phonetic
    texts that are not empty, in their order, with a comma and a space. *)
Theorem pronunciation_follows_word (selection : str) (es : list Entry)
    (e : Entry) (w s : str) (ss : list str) :
  encodable selection = true ->
  forallb entry_one_line es = true ->
  In e es ->
  word e = Some w ->
  phonetic_strings e = s :: ss ->
  exists report pre post,
    lookup_entries rt selection es = Ok (Some report)
    /\ lines report
       = pre
           ++ (u8 "Word: " ++ w)
           :: (u8 "Pronunciation: " ++ join (u8 ", ") (s :: ss))
           :: post.
Proof.
  intros Henc Hplain He Hw Hph.
  rewrite (@lookup_entries_items selection es Henc).
  destruct (flat_map_split entry_items e es He) as (p & q & E).
  assert (Hitems :
            report_items es
            = p ++ (u8 "Word: " ++ w)
                :: (u8 "Pronunciation: " ++ join (u8 ", ") (s :: ss))
                :: (flat_map meaning_items (all_meanings e) ++ q)).
  { unfold report_items. rewrite E. unfold entry_items.
    rewrite Hw, Hph. now rewrite <- !app_assoc. }
  rewrite forallb_forall in Hplain. specialize (Hplain e He).
  unfold entry_one_line in Hplain. rewrite !andb_true_iff in Hplain.
  destruct Hplain as [[Hwl Hpl] _]. rewrite Hw in Hwl. cbn [or_empty] in Hwl.
  pose proof (phonetic_strings_one_line e Hpl) as Hphl. rewrite Hph in Hphl.
  rewrite Hitems.
  destruct (p ++ (u8 "Word: " ++ w)
              :: (u8 "Pronunciation: " ++ join (u8 ", ") (s :: ss))
              :: (flat_map meaning_items (all_meanings e) ++ q))
    as [|x items] eqn:Ex; [now destruct p|].
  eexists _, (text_lines p), _. split; [reflexivity|].
  rewrite lines_join by discriminate. rewrite <- Ex.
  fold (text_lines
          (p ++ (u8 "Word: " ++ w)
             :: (u8 "Pronunciation: " ++ join (u8 ", ") (s :: ss))
             :: (flat_map meaning_items (all_meanings e) ++ q))).
  rewrite text_lines_app.
  rewrite text_lines_cons_one_line by (rewrite one_line_app; exact Hwl).
  rewrite text_lines_cons_one_line
    by (rewrite one_line_app; apply one_line_join;
        [reflexivity | exact Hphl]).
  reflexivity.
Qed.

End Reports.

Lemma not_found_iff_nothing_to_render_witness :
  lookup_entries example_runtime (u8 "run")
    [{| word := None;
        phonetics := Some [{| text := Some [] |}; {| text := None |}];
        meanings := Some [] |}]
  = Ok None.
Proof.
  apply (proj2 (@not_found_iff_nothing_to_render example_runtime (u8 "run")
                  [{| word := None;
                      phonetics :=
                        Some [{| text := Some [] |}; {| text := None |}];
                      meanings := Some [] |}] eq_refl)).
  reflexivity.
Defined.

Lemma report_of_concatenation_witness :
  lookup_entries example_runtime (u8 "run") (run_entries ++ run_entries)
  = match lookup_entries example_runtime (u8 "run") run_entries,
          lookup_entries example_runtime (u8 "run") run_entries with
    | Ok (Some r1), Ok (Some r2) => Ok (Some (r1 ++ nl ++ r2))
    | Ok None, other => other
    | other, _ => other
    end.
Proof.
  exact (@report_of_concatenation example_runtime (u8 "run") run_entries
           run_entries eq_refl).
Defined.

Lemma pronunciation_follows_word_witness :
  exists report pre post,
    lookup_entries example_runtime (u8 "run") run_entries = Ok (Some report)
    /\ lines report
       = pre
           ++ (u8 "Word: " ++ u8 "run")
           :: (u8 "Pronunciation: " ++ join (u8 ", ") [u8 "/rʌn/"])
           :: post.
Proof.
  apply (@pronunciation_follows_word example_runtime (u8 "run") run_entries
           {| word := Some (u8 "run");
              phonetics := Some [{| text := Some (u8 "/rʌn/") |}];
              meanings :=
                Some [{| partOfSpeech := Some (u8 "verb");
                         definitions :=
                           Some [{| definition := Some (u8 "move fast");
                                    example := Some (u8 "She ran.") |}] |}] |}
           (u8 "run") (u8 "/rʌn/") []);
    [reflexivity | reflexivity | left; reflexivity | reflexivity
    | reflexivity].
Defined.

(* ================================================================== *)
(** ** One press of the hotkey *)

